(** * Power-down manager (components/bpp-recv/powerdown.c)

    A shallow embedding of the sleep/wake arbitration core and the
    verification of its specification.

    Modelling conventions.
    - [int] values are 32-bit two's complement: every value stored in an
      [int] goes through [int32].  [uint64_t] values go through [uint64].
      Arithmetic in [time_t]/[suseconds_t] ([struct timeval] fields) is
      taken exactly, on [Z]; C division and remainder truncate towards
      zero ([Z.quot], [Z.rem]).
    - The linked list [powerItems] is a [list PowerItem] in list order:
      the head of the list is the record [powerItems] points to, and
      [next] is the tail.  A [PowerItem *] into the list is an index.
    - [gettimeofday] is an oracle: the world carries the sequence of
      readings [clock] and the number [tick] of readings consumed so far.
    - The callback [pdCb] is external; the world records whether one is
      installed and logs every invocation [(sleepMs, nextMode)] in
      [cbLog], oldest first.  [tmrResets] counts [xTimerReset] calls.
    - The mutex and the debug [printf]s have no effect on the state
      modelled here and are left out.
    - [NO_POWER_MODES] and the [PowerMode] enumeration come from
      powerdown.h; the constant is a parameter of the development and
      modes are natural numbers. *)

From Stdlib Require Import ZArith Lia Bool.
From stdpp Require Import base list.

Local Open Scope Z_scope.

(** ** Machine integers *)

Definition int32 (z : Z) : Z := (z + 2 ^ 31) mod 2 ^ 32 - 2 ^ 31.
Definition uint64 (z : Z) : Z := z mod 2 ^ 64.

(** ** Data *)

Record timeval := { tv_sec : Z; tv_usec : Z }.

Definition ST_ACTIVE : Z := 0.
Definition ST_CANSLEEP : Z := 1.
Definition ST_CANSLEEP_UNTIL : Z := 2.

Record PowerItem := {
  ref : Z;
  state : Z;
  sleepUntil : timeval  (* also the moment a hold expires *)
}.

Definition set_state (s : Z) (i : PowerItem) : PowerItem :=
  {| ref := ref i; state := s; sleepUntil := sleepUntil i |}.

Definition set_sleepUntil (tv : timeval) (i : PowerItem) : PowerItem :=
  {| ref := ref i; state := state i; sleepUntil := tv |}.

Record World := {
  pdCb : bool;                     (* is a callback installed? *)
  powerMode : nat;
  savedWakeTimestamp : list Z;     (* NO_POWER_MODES slots, RTC memory *)
  powerItems : list PowerItem;
  clock : nat -> timeval;          (* readings of gettimeofday *)
  tick : nat;                      (* readings consumed so far *)
  cbLog : list (Z * nat);          (* callback invocations *)
  tmrResets : nat                  (* xTimerReset calls *)
}.

Definition set_tick (t : nat) (w : World) : World :=
  {| pdCb := pdCb w; powerMode := powerMode w;
     savedWakeTimestamp := savedWakeTimestamp w; powerItems := powerItems w;
     clock := clock w; tick := t; cbLog := cbLog w; tmrResets := tmrResets w |}.

Definition set_powerItems (l : list PowerItem) (w : World) : World :=
  {| pdCb := pdCb w; powerMode := powerMode w;
     savedWakeTimestamp := savedWakeTimestamp w; powerItems := l;
     clock := clock w; tick := tick w; cbLog := cbLog w; tmrResets := tmrResets w |}.

Definition set_savedWakeTimestamp (ts : list Z) (w : World) : World :=
  {| pdCb := pdCb w; powerMode := powerMode w;
     savedWakeTimestamp := ts; powerItems := powerItems w;
     clock := clock w; tick := tick w; cbLog := cbLog w; tmrResets := tmrResets w |}.

Definition set_cbLog (l : list (Z * nat)) (w : World) : World :=
  {| pdCb := pdCb w; powerMode := powerMode w;
     savedWakeTimestamp := savedWakeTimestamp w; powerItems := powerItems w;
     clock := clock w; tick := tick w; cbLog := l; tmrResets := tmrResets w |}.

Definition xTimerReset (w : World) : World :=
  {| pdCb := pdCb w; powerMode := powerMode w;
     savedWakeTimestamp := savedWakeTimestamp w; powerItems := powerItems w;
     clock := clock w; tick := tick w; cbLog := cbLog w;
     tmrResets := S (tmrResets w) |}.

(** [savedWakeTimestamp[i]]; the C array has exactly [NO_POWER_MODES]
    slots and an index outside it is undefined behaviour, the model
    reads 0 there. *)
Definition wakeTs (ts : list Z) (i : nat) : Z := default 0 (ts !! i).

(** ** Time *)

Definition gettimeofday (w : World) : timeval * World :=
  (clock w (tick w), set_tick (S (tick w)) w).

Definition ms_of (tv : timeval) : Z :=
  uint64 (tv_sec tv * 1000 + tv_usec tv ÷ 1000).

Definition getCurrentTimeMs (w : World) : Z * World :=
  let '(tv, w) := gettimeofday w in (ms_of tv, w).

(** The delay between [sleepUntil] and [now], lines 87-88. *)
Definition mssleep_of (until now : timeval) : Z :=
  let mssleep := int32 ((tv_sec until - tv_sec now) * 1000) in
  int32 (mssleep + (tv_usec until - tv_usec now) ÷ 1000).

(** ** The hold registry *)

Fixpoint find_index (r : Z) (l : list PowerItem) : option nat :=
  match l with
  | [] => None
  | i :: rest => if ref i =? r then Some 0%nat else S <$> find_index r rest
  end.

Definition new_item (r : Z) : PowerItem :=
  {| ref := r; state := 0; sleepUntil := {| tv_sec := 0; tv_usec := 0 |} |}.

(** Returns the position of the record, adding a zeroed one at the head
    when the reference is not known yet. *)
Definition findItem (r : Z) (w : World) : nat * World :=
  match find_index r (powerItems w) with
  | Some p => (p, w)
  | None => (0%nat, set_powerItems (new_item r :: powerItems w) w)
  end.

(** A store through a [PowerItem *]. *)
Definition modify (p : nat) (f : PowerItem -> PowerItem) (w : World) : World :=
  set_powerItems (alter f p (powerItems w)) w.

(** The record the registry holds for a reference: the first match. *)
Definition item_of (r : Z) (l : list PowerItem) : option PowerItem :=
  p ← find_index r l; l !! p.

Definition doSleep (sleepMs : Z) (nextMode : nat) (w : World) : World :=
  if pdCb w then set_cbLog (cbLog w ++ [(sleepMs, nextMode)]) w else w.

(** ** Arbitration *)

(** One iteration of the scan of the registry (lines 89-114), given the
    reading [now] taken at its start. *)
Definition scan_item (i : PowerItem) (now : timeval)
    (canSleepForMs cannotSleep : Z) : PowerItem * Z * Z :=
  let mssleep := mssleep_of (sleepUntil i) now in
  if state i =? ST_ACTIVE then
    if 0 <? mssleep then (i, canSleepForMs, 1)
    else (set_state ST_CANSLEEP i, canSleepForMs, cannotSleep)
  else if state i =? ST_CANSLEEP_UNTIL then
    if mssleep <? 2000 then (set_state ST_ACTIVE i, canSleepForMs, 1)
    else if (canSleepForMs =? -1) || (mssleep <? canSleepForMs)
         then (i, mssleep, cannotSleep)
         else (i, canSleepForMs, cannotSleep)
  else (i, canSleepForMs, cannotSleep).

(** The [while (i!=NULL)] loop, lines 83-116. *)
Fixpoint scan_loop (items : list PowerItem) (canSleepForMs cannotSleep : Z)
    (w : World) : list PowerItem * Z * Z * World :=
  match items with
  | [] => ([], canSleepForMs, cannotSleep, w)
  | i :: rest =>
      let '(now, w) := gettimeofday w in
      let '(i', c, b) := scan_item i now canSleepForMs cannotSleep in
      let '(rest', c, b, w) := scan_loop rest c b w in
      (i' :: rest', c, b, w)
  end.

(** The loop over the higher-priority modes, lines 119-125.  The clock
    is only read for a slot that is not zero. *)
Fixpoint due_loop (modes : list nat) (cannotSleep : Z) (w : World) : Z * World :=
  match modes with
  | [] => (cannotSleep, w)
  | i :: rest =>
      if wakeTs (savedWakeTimestamp w) i =? 0 then due_loop rest cannotSleep w
      else
        let '(now, w) := getCurrentTimeMs w in
        if wakeTs (savedWakeTimestamp w) i <? now
        then due_loop rest 1 (doSleep 0 i w)
        else due_loop rest cannotSleep w
  end.

(** The search for the lowest wake timestamp, lines 131-136. *)
Fixpoint nearest_loop (ts : list Z) (modes : list nat) (nearestMode : nat) : nat :=
  match modes with
  | [] => nearestMode
  | i :: rest =>
      if negb (wakeTs ts i =? 0) && (wakeTs ts i <? wakeTs ts nearestMode)
      then nearest_loop ts rest i
      else nearest_loop ts rest nearestMode
  end.

Section Modes.

(** The number of power modes, from powerdown.h. *)
Variable NO_POWER_MODES : nat.

(** The first loop of [checkCanSleep] with its initial values. *)
Definition scan_phase (w : World) : list PowerItem * Z * Z * World :=
  scan_loop (powerItems w) (-1) 0 w.

Definition higher_modes (w : World) : list nat :=
  seq (S (powerMode w)) (NO_POWER_MODES - S (powerMode w)).

(** The state at line 128: the registry has been scanned and the
    higher-priority modes checked. *)
Definition decision_point (w : World) : Z * Z * World :=
  let '(items, canSleepForMs, cannotSleep, w) := scan_phase w in
  let w := set_powerItems items w in
  let '(cannotSleep, w) := due_loop (higher_modes w) cannotSleep w in
  (canSleepForMs, cannotSleep, w).

Definition nearestMode_of (ts : list Z) : nat :=
  nearest_loop ts (seq 0 NO_POWER_MODES) 0%nat.

(** Lines 129-143, the branch taken when nothing blocks sleep. *)
Definition sleep_branch (canSleepForMs : Z) (w : World) : World :=
  let '(now, w) := getCurrentTimeMs w in
  let w := set_savedWakeTimestamp
             (<[powerMode w := uint64 (now + canSleepForMs)]> (savedWakeTimestamp w)) w in
  let nearestMode := nearestMode_of (savedWakeTimestamp w) in
  if (nearestMode =? powerMode w)%nat then doSleep canSleepForMs nearestMode w
  else
    let '(now, w) := getCurrentTimeMs w in
    doSleep (int32 (uint64 (wakeTs (savedWakeTimestamp w) nearestMode - now)))
            nearestMode w.

Definition checkCanSleep (w : World) : World :=
  let '(canSleepForMs, cannotSleep, w) := decision_point w in
  let w := if cannotSleep =? 0 then sleep_branch canSleepForMs w else w in
  xTimerReset w.

(** ** The owner-facing operations *)

(** [gettimeofday(&tv)] followed by the addition of [ms] milliseconds,
    lines 152-158 and 171-177. *)
Definition deadline_after (now : timeval) (ms : Z) : timeval :=
  let sec := tv_sec now + ms ÷ 1000 in
  let usec := tv_usec now + Z.rem ms 1000 * 1000 in
  if 1000000 <? usec
  then {| tv_sec := sec + 1; tv_usec := usec - 1000000 |}
  else {| tv_sec := sec; tv_usec := usec |}.

Definition _powerHold (r holdTimeMs : Z) (w : World) : World :=
  let '(p, w) := findItem r w in
  let '(now, w) := gettimeofday w in
  let w := modify p (set_sleepUntil (deadline_after now holdTimeMs)) w in
  modify p (set_state ST_ACTIVE) w.

Definition _powerCanSleepFor (r delayMs : Z) (w : World) : World :=
  let '(p, w) := findItem r w in
  let '(now, w) := gettimeofday w in
  let w := modify p (set_sleepUntil (deadline_after now delayMs)) w in
  let w := modify p (set_state ST_CANSLEEP_UNTIL) w in
  checkCanSleep w.

Definition _powerCanSleep (r : Z) (w : World) : World :=
  let '(p, w) := findItem r w in
  let w := modify p (set_state ST_CANSLEEP) w in
  checkCanSleep w.

Definition pwrdwnmgrTimer (w : World) : World := checkCanSleep w.

(** The period of the timer, in milliseconds. *)
Definition TIMER_PERIOD_MS : Z := 5000.

(** Installs the callback and the mode; creating and starting the
    timer arms it for the first time. *)
Definition powerDownMgrInit (cb : bool) (mode : nat) (w : World) : World :=
  xTimerReset
    {| pdCb := cb; powerMode := mode;
       savedWakeTimestamp := savedWakeTimestamp w; powerItems := powerItems w;
       clock := clock w; tick := tick w; cbLog := cbLog w;
       tmrResets := tmrResets w |}.

(** Calls into the manager, and runs of them. *)
Inductive Call :=
| Hold (r holdTimeMs : Z)
| CanSleepFor (r delayMs : Z)
| CanSleep (r : Z)
| Timer.

Definition run_call (w : World) (c : Call) : World :=
  match c with
  | Hold r ms => _powerHold r ms w
  | CanSleepFor r ms => _powerCanSleepFor r ms w
  | CanSleep r => _powerCanSleep r w
  | Timer => pwrdwnmgrTimer w
  end.

Definition run (cs : list Call) (w : World) : World := fold_left run_call cs w.

End Modes.

(** A freshly booted manager: no callback log, no owners, clock frozen. *)
Definition boot (mode : nat) (ts : list Z) (items : list PowerItem)
    (now : timeval) : World :=
  {| pdCb := true; powerMode := mode; savedWakeTimestamp := ts;
     powerItems := items; clock := fun _ => now; tick := 0;
     cbLog := []; tmrResets := 0 |}.

Definition at_ms (ms : Z) : timeval :=
  {| tv_sec := ms ÷ 1000; tv_usec := Z.rem ms 1000 * 1000 |}.

(** The clock reads [now] at every reading from the current one on. *)
Definition frozen (w : World) (now : timeval) : Prop :=
  forall k, (tick w <= k)%nat -> clock w k = now.

(** What a pass leaves alone before line 128: everything but the
    registry, the number of clock readings and the callback log. *)
Definition frame (w w' : World) : Prop :=
  pdCb w' = pdCb w /\ powerMode w' = powerMode w /\
  savedWakeTimestamp w' = savedWakeTimestamp w /\
  clock w' = clock w /\ tmrResets w' = tmrResets w.

(** The record an iteration of the scan leaves behind, whether it sets
    [cannotSleep], and the bound it offers for [canSleepForMs]. *)
Definition item_after (i : PowerItem) (now : timeval) : PowerItem :=
  (scan_item i now (-1) 0).1.1.

Definition blocks (i : PowerItem) (now : timeval) : bool :=
  ((state i =? ST_ACTIVE) && (0 <? mssleep_of (sleepUntil i) now))
  || ((state i =? ST_CANSLEEP_UNTIL) && (mssleep_of (sleepUntil i) now <? 2000)).

Definition offers (i : PowerItem) (now : timeval) : bool :=
  (state i =? ST_CANSLEEP_UNTIL) && (2000 <=? mssleep_of (sleepUntil i) now).

(** A mode whose wake timestamp makes the loop of lines 119-125 fire. *)
Definition is_due (ts : list Z) (now : Z) (m : nat) : bool :=
  negb (wakeTs ts m =? 0) && (wakeTs ts m <? now).

(** The update of [canSleepForMs] by one record, lines 107-109. *)
Definition bound_step (now : timeval) (c : Z) (i : PowerItem) : Z :=
  if offers i now
  then (if (c =? -1) || (mssleep_of (sleepUntil i) now <? c)
        then mssleep_of (sleepUntil i) now else c)
  else c.


Definition us_of (tv : timeval) : Z := tv_sec tv * 1000000 + tv_usec tv.

(** A record with the given state whose deadline is [ms] milliseconds
    after the epoch. *)
Definition item (r s ms : Z) : PowerItem :=
  {| ref := r; state := s; sleepUntil := at_ms ms |}.

(** Worlds used as examples: booted at 10 s in mode 0 with two modes
    and an empty wake table unless said otherwise. *)
Definition w_hold : World :=
  boot 0 [0; 0] [item 7 ST_ACTIVE 11000] (at_ms 10000).

Definition w_short : World :=
  boot 0 [0; 0] [item 7 ST_CANSLEEP_UNTIL 11500] (at_ms 10000).

Definition w_long : World :=
  boot 0 [0; 0] [item 7 ST_CANSLEEP_UNTIL 13000; item 8 ST_CANSLEEP_UNTIL 14000]
       (at_ms 10000).

(** One window is long enough, the other one is already over. *)
Definition w_mixed : World :=
  boot 0 [0; 0] [item 7 ST_CANSLEEP_UNTIL 13000; item 8 ST_CANSLEEP_UNTIL 9000]
       (at_ms 10000).

(** Mode 1 has to wake at 9 s, respectively exactly at 10 s. *)
Definition w_due : World := boot 0 [0; 9000] [] (at_ms 10000).
Definition w_due_now : World := boot 0 [0; 10000] [] (at_ms 10000).

(** Three modes, both higher ones overdue. *)
Definition w_two_due : World := boot 0 [0; 5000; 6000] [] (at_ms 10000).

(** Running in mode 1 after a first boot: no wake timestamp yet. *)
Definition w_mode1 : World :=
  boot 1 [0; 0] [item 7 ST_CANSLEEP_UNTIL 13000] (at_ms 10000).

Definition w_idle : World := boot 0 [0; 0] [item 7 ST_CANSLEEP 0] (at_ms 10000).


(** A call that is neither a hold nor a timed permission of owner [r]. *)
Definition owner_quiet (r : Z) (c : Call) : Prop :=
  match c with
  | Hold r' _ | CanSleepFor r' _ => r' <> r
  | CanSleep _ | Timer => True
  end.

(** Among the [n] modes, [r] holds the least nonzero wake timestamp and
    is the first mode to do so. *)
Definition first_least (ts : list Z) (n r : nat) : Prop :=
  (r < n)%nat /\ wakeTs ts r <> 0 /\
  (forall m, (m < r)%nat -> wakeTs ts m = 0 \/ wakeTs ts r < wakeTs ts m) /\
  (forall m, (r < m < n)%nat -> wakeTs ts m = 0 \/ wakeTs ts r <= wakeTs ts m).

(** The three values the code ever stores in [state]. *)
Definition valid_state (i : PowerItem) : Prop :=
  state i = ST_ACTIVE \/ state i = ST_CANSLEEP \/ state i = ST_CANSLEEP_UNTIL.

(** The number of calls of a run that end in [checkCanSleep]: all but
    the holds. *)
Definition passes_of (cs : list Call) : nat :=
  length (List.filter (fun c => match c with Hold _ _ => false | _ => true end) cs).

(** What an owner-facing operation has done when it reaches its call of
    [checkCanSleep] (or its end, for a hold): at most one store through
    the pointer [findItem] returned, and clock readings. *)
Definition touched (w w1 : World) : Prop :=
  pdCb w1 = pdCb w /\ powerMode w1 = powerMode w /\
  savedWakeTimestamp w1 = savedWakeTimestamp w /\ clock w1 = clock w /\
  cbLog w1 = cbLog w /\ tmrResets w1 = tmrResets w /\
  (tick w <= tick w1)%nat /\
  (powerItems w1 = powerItems w \/
   exists r f, (forall i, ref (f i) = ref i) /\ (forall i, valid_state (f i)) /\
               powerItems w1 = alter f (findItem r w).1 (powerItems (findItem r w).2)).

(** A hold of 1 ms taken at 10.000000 s, looked at 500 microseconds
    later. *)
Definition w_half_ms : World :=
  boot 0 [0; 0]
       [{| ref := 7; state := ST_ACTIVE;
           sleepUntil := {| tv_sec := 10; tv_usec := 1000 |} |}]
       {| tv_sec := 10; tv_usec := 500 |}.

(** A permission of 2000 ms given at 10.000000 s, looked at 300
    microseconds later. *)
Definition w_window_2000 : World :=
  boot 0 [0; 0]
       [{| ref := 7; state := ST_CANSLEEP_UNTIL;
           sleepUntil := {| tv_sec := 12; tv_usec := 0 |} |}]
       {| tv_sec := 10; tv_usec := 300 |}.

(** The record of [w_short] after its promotion, looked at 25 days
    after the end of its window. *)
Definition w_25_days : World :=
  boot 0 [0; 0] [set_state ST_ACTIVE (item 7 ST_CANSLEEP_UNTIL 11500)]
       {| tv_sec := 2160011; tv_usec := 500000 |}.

(** An empty registry on a clock that reads [t0] once and [t1] from
    then on. *)
Definition w_two_readings (t0 t1 : timeval) : World :=
  {| pdCb := true; powerMode := 0; savedWakeTimestamp := [0; 0];
     powerItems := [];
     clock := fun k => match k with O => t0 | _ => t1 end;
     tick := 0; cbLog := []; tmrResets := 0 |}.

(** ** Basic facts *)

Lemma int32_small z : - 2 ^ 31 <= z < 2 ^ 31 -> int32 z = z.
Proof.
  intros H. unfold int32. rewrite Z.mod_small; lia.
Qed.

Lemma uint64_small z : 0 <= z < 2 ^ 64 -> uint64 z = z.
Proof. intros H. unfold uint64. apply Z.mod_small. lia. Qed.


(** Without wrap-around [mssleep_of] is the difference of the seconds
    in milliseconds plus the truncated difference of the microseconds. *)
Lemma mssleep_of_exact until now :
  - 2 ^ 31 <= (tv_sec until - tv_sec now) * 1000 < 2 ^ 31 ->
  - 2 ^ 31 <= (tv_sec until - tv_sec now) * 1000
              + (tv_usec until - tv_usec now) ÷ 1000 < 2 ^ 31 ->
  mssleep_of until now =
  (tv_sec until - tv_sec now) * 1000 + (tv_usec until - tv_usec now) ÷ 1000.
Proof.
  intros H1 H2. unfold mssleep_of. cbv zeta.
  rewrite (int32_small _ H1). apply int32_small. exact H2.
Qed.

(** Division by 1000 as C does it. *)
Lemma quot_1000 x :
  exists r, x = 1000 * (x ÷ 1000) + r /\
            (0 <= x -> 0 <= r < 1000) /\ (x <= 0 -> - 1000 < r <= 0).
Proof.
  exists (Z.rem x 1000). split; [apply Z.quot_rem'|]. split; intros H.
  - apply Z.rem_bound_pos; lia.
  - pose proof (Z.rem_nonpos x 1000). pose proof (Z.rem_bound_abs x 1000). lia.
Qed.

(** X21.  A deadline at least one millisecond after a normalized
    reading has a positive remaining time, and a positive remaining
    time means the deadline is after the reading (within the range
    where the [int] computation of lines 87-88 does not wrap). *)
Lemma mssleep_of_pos until now :
  0 <= tv_usec now < 1000000 -> 0 <= tv_usec until <= 1000000 ->
  - 2000000 < tv_sec until - tv_sec now < 2000000 ->
  (us_of now + 1000 <= us_of until -> 0 < mssleep_of until now) /\
  (0 < mssleep_of until now -> us_of now < us_of until).
Proof.
  intros Hn Hu Hs.
  destruct (quot_1000 (tv_usec until - tv_usec now)) as (r & Hqr & Hpos & Hneg).
  rewrite mssleep_of_exact by lia.
  unfold us_of. split; intros H; lia.
Qed.

Lemma frame_refl w : frame w w.
Proof. repeat split. Qed.

Lemma frame_trans w1 w2 w3 : frame w1 w2 -> frame w2 w3 -> frame w1 w3.
Proof.
  unfold frame. intros (?&?&?&?&?) (?&?&?&?&?). repeat split; congruence.
Qed.

Lemma frozen_set_tick w now t :
  frozen w now -> (tick w <= t)%nat -> frozen (set_tick t w) now.
Proof. intros H Ht k Hk. simpl in *. apply H. lia. Qed.

(** ** The scan of the registry *)

Lemma scan_item_item i now c b : (scan_item i now c b).1.1 = item_after i now.
Proof.
  unfold item_after, scan_item.
  repeat (case_match; simpl; try reflexivity).
Qed.

Lemma scan_item_flag i now c b :
  (scan_item i now c b).2 = if blocks i now then 1 else b.
Proof.
  unfold blocks, scan_item.
  destruct (state i =? ST_ACTIVE) eqn:Ha; simpl.
  - apply Z.eqb_eq in Ha. rewrite Ha. simpl. destruct (0 <? _); reflexivity.
  - destruct (state i =? ST_CANSLEEP_UNTIL); simpl; [|reflexivity].
    destruct (_ <? 2000); simpl; [reflexivity|].
    destruct (_ || _); reflexivity.
Qed.

Lemma scan_item_bound i now c b :
  (scan_item i now c b).1.2 =
  if offers i now
  then (if (c =? -1) || (mssleep_of (sleepUntil i) now <? c)
        then mssleep_of (sleepUntil i) now else c)
  else c.
Proof.
  unfold offers, scan_item.
  destruct (state i =? ST_ACTIVE) eqn:Ha; simpl.
  - apply Z.eqb_eq in Ha. rewrite Ha. simpl. destruct (0 <? _); reflexivity.
  - destruct (state i =? ST_CANSLEEP_UNTIL); simpl; [|reflexivity].
    rewrite Z.leb_antisym. destruct (_ <? 2000); simpl; [reflexivity|].
    destruct (_ || _); reflexivity.
Qed.

Lemma item_after_ref i now : ref (item_after i now) = ref i.
Proof.
  unfold item_after, scan_item. repeat (case_match; simpl; try reflexivity).
Qed.

Lemma item_after_sleepUntil i now : sleepUntil (item_after i now) = sleepUntil i.
Proof.
  unfold item_after, scan_item. repeat (case_match; simpl; try reflexivity).
Qed.

Lemma item_after_state i now :
  state (item_after i now) =
  if state i =? ST_ACTIVE
  then (if 0 <? mssleep_of (sleepUntil i) now then ST_ACTIVE else ST_CANSLEEP)
  else if (state i =? ST_CANSLEEP_UNTIL) && (mssleep_of (sleepUntil i) now <? 2000)
       then ST_ACTIVE else state i.
Proof.
  unfold item_after, scan_item.
  destruct (state i =? ST_ACTIVE) eqn:Ha.
  - apply Z.eqb_eq in Ha. destruct (0 <? _); simpl; congruence.
  - destruct (state i =? ST_CANSLEEP_UNTIL); simpl; [|reflexivity].
    destruct (_ <? 2000); reflexivity.
Qed.

Lemma scan_loop_cons i rest c b w :
  scan_loop (i :: rest) c b w =
  let s := scan_item i (clock w (tick w)) c b in
  let r := scan_loop rest s.1.2 s.2 (set_tick (S (tick w)) w) in
  (s.1.1 :: r.1.1.1, r.1.1.2, r.1.2, r.2).
Proof.
  simpl. destruct (scan_item _ _ _ _) as [[i' c'] b']. simpl.
  destruct (scan_loop _ _ _ _) as [[[r' c''] b''] w']. reflexivity.
Qed.

Lemma scan_loop_world items : forall c b w,
  (scan_loop items c b w).2 = set_tick (tick w + length items) w.
Proof.
  induction items as [|i rest IH]; intros c b w.
  - simpl. destruct w; unfold set_tick; simpl. rewrite Nat.add_0_r. reflexivity.
  - rewrite scan_loop_cons. simpl. rewrite IH. unfold set_tick. simpl.
    rewrite Nat.add_succ_r. reflexivity.
Qed.

Lemma scan_loop_items items : forall c b w k,
  (scan_loop items c b w).1.1.1 !! k =
  (fun i => item_after i (clock w (tick w + k))) <$> items !! k.
Proof.
  induction items as [|i rest IH]; intros c b w k.
  - reflexivity.
  - rewrite scan_loop_cons. simpl. destruct k as [|k]; simpl.
    + rewrite scan_item_item. do 3 f_equal. lia.
    + rewrite IH. simpl. destruct (rest !! k); simpl; [|reflexivity].
      do 3 f_equal. lia.
Qed.

Lemma scan_loop_flag_mono items : forall c b w,
  (scan_loop items c b w).1.2 = b \/ (scan_loop items c b w).1.2 = 1.
Proof.
  induction items as [|i rest IH]; intros c b w.
  - left. reflexivity.
  - rewrite scan_loop_cons. simpl.
    destruct (IH (scan_item i (clock w (tick w)) c b).1.2
                 (scan_item i (clock w (tick w)) c b).2
                 (set_tick (S (tick w)) w)) as [H|H]; rewrite H; [|tauto].
    rewrite scan_item_flag. destruct (blocks _ _); tauto.
Qed.

Lemma scan_loop_flag_blocked items : forall c b w k i,
  items !! k = Some i ->
  blocks i (clock w (tick w + k)) = true ->
  (scan_loop items c b w).1.2 = 1.
Proof.
  induction items as [|i0 rest IH]; intros c b w k i Hk Hb.
  - discriminate.
  - rewrite scan_loop_cons. simpl. destruct k as [|k]; simpl in Hk.
    + injection Hk as ->. rewrite Nat.add_0_r in Hb.
      destruct (scan_loop_flag_mono rest
                  (scan_item i (clock w (tick w)) c b).1.2
                  (scan_item i (clock w (tick w)) c b).2
                  (set_tick (S (tick w)) w)) as [H|H]; rewrite H; [|reflexivity].
      rewrite scan_item_flag, Hb. reflexivity.
    + eapply IH; [exact Hk|]. simpl.
      rewrite <- Nat.add_succ_r. exact Hb.
Qed.

Lemma scan_loop_flag_free items : forall c b w,
  (forall k i, items !! k = Some i -> blocks i (clock w (tick w + k)) = false) ->
  (scan_loop items c b w).1.2 = b.
Proof.
  induction items as [|i0 rest IH]; intros c b w H.
  - reflexivity.
  - rewrite scan_loop_cons. simpl. rewrite IH.
    + rewrite scan_item_flag. specialize (H 0%nat i0 eq_refl).
      rewrite Nat.add_0_r in H. rewrite H. reflexivity.
    + intros k i Hk. simpl.
      rewrite <- Nat.add_succ_r. apply H. exact Hk.
Qed.

(** ** The check of the higher-priority modes *)

Lemma due_loop_cons i rest b w :
  due_loop (i :: rest) b w =
  if wakeTs (savedWakeTimestamp w) i =? 0 then due_loop rest b w
  else if wakeTs (savedWakeTimestamp w) i <? ms_of (clock w (tick w))
       then due_loop rest 1 (doSleep 0 i (set_tick (S (tick w)) w))
       else due_loop rest b (set_tick (S (tick w)) w).
Proof. reflexivity. Qed.

Lemma doSleep_frame ms m w : frame w (doSleep ms m w).
Proof. unfold doSleep. destruct (pdCb w); repeat split. Qed.

Lemma doSleep_tick ms m w : tick (doSleep ms m w) = tick w.
Proof. unfold doSleep. destruct (pdCb w); reflexivity. Qed.

Lemma doSleep_powerItems ms m w : powerItems (doSleep ms m w) = powerItems w.
Proof. unfold doSleep. destruct (pdCb w); reflexivity. Qed.

Lemma doSleep_savedWakeTimestamp ms m w :
  savedWakeTimestamp (doSleep ms m w) = savedWakeTimestamp w.
Proof. unfold doSleep. destruct (pdCb w); reflexivity. Qed.

Lemma doSleep_log ms m w :
  pdCb w = true -> cbLog (doSleep ms m w) = cbLog w ++ [(ms, m)].
Proof. unfold doSleep. intros ->. reflexivity. Qed.

Lemma due_loop_frame modes : forall b w,
  frame w (due_loop modes b w).2 /\
  powerItems (due_loop modes b w).2 = powerItems w /\
  (tick w <= tick (due_loop modes b w).2)%nat.
Proof.
  induction modes as [|i rest IH]; intros b w.
  - split; [apply frame_refl|split; [reflexivity|simpl; lia]].
  - rewrite due_loop_cons.
    destruct (_ =? 0); [apply IH|].
    destruct (_ <? _).
    + destruct (IH 1 (doSleep 0 i (set_tick (S (tick w)) w))) as (Hf & Hi & Ht).
      split; [|split].
      * eapply frame_trans; [|exact Hf].
        eapply frame_trans; [|apply doSleep_frame]. repeat split.
      * rewrite Hi, doSleep_powerItems. reflexivity.
      * rewrite doSleep_tick in Ht. simpl in Ht. lia.
    + destruct (IH b (set_tick (S (tick w)) w)) as (Hf & Hi & Ht).
      split; [|split].
      * eapply frame_trans; [|exact Hf]. repeat split.
      * rewrite Hi. reflexivity.
      * simpl in Ht. lia.
Qed.

(** The loop only adds zero-duration requests for modes of its range
    whose slot is not zero, and it never clears the flag. *)
Lemma due_loop_log modes : forall b w,
  exists due,
    cbLog (due_loop modes b w).2 = cbLog w ++ map (fun m => (0, m)) due /\
    Forall (fun m => In m modes /\ wakeTs (savedWakeTimestamp w) m <> 0) due /\
    ((due_loop modes b w).1 = 1 \/ (due_loop modes b w).1 = b /\ due = []).
Proof.
  induction modes as [|i rest IH]; intros b w.
  - exists []. simpl. rewrite app_nil_r. auto.
  - rewrite due_loop_cons.
    destruct (_ =? 0) eqn:Hz.
    + destruct (IH b w) as (due & Hl & Hd & Hb). exists due.
      split; [exact Hl|split; [|exact Hb]].
      eapply Forall_impl; [exact Hd|]. simpl. intros m [? ?]. auto.
    + apply Z.eqb_neq in Hz. destruct (_ <? _).
      * destruct (IH 1 (doSleep 0 i (set_tick (S (tick w)) w)))
          as (due & Hl & Hd & Hb).
        assert (Hts : savedWakeTimestamp (doSleep 0 i (set_tick (S (tick w)) w))
                      = savedWakeTimestamp w).
        { rewrite doSleep_savedWakeTimestamp. reflexivity. }
        rewrite Hts in Hd.
        assert (Hd' : Forall (fun m => In m (i :: rest) /\
                        wakeTs (savedWakeTimestamp w) m <> 0) due).
        { eapply Forall_impl; [exact Hd|]. simpl. intros m [? ?]. auto. }
        assert (Hone : (due_loop rest 1 (doSleep 0 i (set_tick (S (tick w)) w))).1 = 1)
          by (destruct Hb as [Hb|[Hb _]]; exact Hb).
        destruct (pdCb w) eqn:Hcb.
        -- exists (i :: due). rewrite Hl, doSleep_log by exact Hcb. simpl.
           rewrite <- app_assoc. simpl.
           split; [reflexivity|split; [|left; exact Hone]].
           constructor; [simpl; auto|exact Hd'].
        -- exists due. rewrite Hl.
           split; [|split; [exact Hd'|left; exact Hone]].
           unfold doSleep. simpl. rewrite Hcb. reflexivity.
      * destruct (IH b (set_tick (S (tick w)) w)) as (due & Hl & Hd & Hb).
        exists due. split; [exact Hl|split; [|exact Hb]].
        eapply Forall_impl; [exact Hd|]. simpl. intros m [? ?]. auto.
Qed.

Lemma due_loop_flag_stays modes b w :
  b = 1 -> (due_loop modes b w).1 = 1.
Proof.
  intros ->. destruct (due_loop_log modes 1 w) as (_ & _ & _ & [H|[H _]]); exact H.
Qed.

Section Pass.

Variable NO_POWER_MODES : nat.

Lemma higher_modes_In w m :
  In m (higher_modes NO_POWER_MODES w) <-> (powerMode w < m < NO_POWER_MODES)%nat.
Proof. unfold higher_modes. rewrite in_seq. lia. Qed.

Lemma decision_point_eq w :
  decision_point NO_POWER_MODES w =
  let s := scan_phase w in
  let d := due_loop (higher_modes NO_POWER_MODES w) s.1.2
             (set_powerItems s.1.1.1 (set_tick (tick w + length (powerItems w)) w)) in
  (s.1.1.2, d.1, d.2).
Proof.
  unfold decision_point. simpl.
  pose proof (scan_loop_world (powerItems w) (-1) 0 w) as Hw.
  unfold scan_phase.
  destruct (scan_loop (powerItems w) (-1) 0 w) as [[[items c] b] w1].
  simpl in *. subst w1. unfold higher_modes. simpl.
  destruct (due_loop _ _ _). reflexivity.
Qed.

Lemma checkCanSleep_eq w :
  checkCanSleep NO_POWER_MODES w =
  let d := decision_point NO_POWER_MODES w in
  xTimerReset (if d.1.2 =? 0 then sleep_branch NO_POWER_MODES d.1.1 d.2 else d.2).
Proof.
  unfold checkCanSleep. destruct (decision_point _ _) as [[c b] w']. reflexivity.
Qed.

(** The registry after a pass: every record as its iteration left it. *)
Lemma decision_point_items w k :
  powerItems (decision_point NO_POWER_MODES w).2 !! k =
  (fun i => item_after i (clock w (tick w + k))) <$> powerItems w !! k.
Proof.
  rewrite decision_point_eq. simpl.
  destruct (due_loop_frame (higher_modes NO_POWER_MODES w)
              (scan_phase w).1.2
              (set_powerItems (scan_phase w).1.1.1
                 (set_tick (tick w + length (powerItems w)) w))) as (_ & Hi & _).
  rewrite Hi. simpl. apply scan_loop_items.
Qed.

Lemma sleep_branch_powerItems c w :
  powerItems (sleep_branch NO_POWER_MODES c w) = powerItems w.
Proof.
  unfold sleep_branch. simpl. destruct (_ =? _)%nat.
  - rewrite doSleep_powerItems. reflexivity.
  - simpl. rewrite doSleep_powerItems. reflexivity.
Qed.

Lemma checkCanSleep_items w k :
  powerItems (checkCanSleep NO_POWER_MODES w) !! k =
  (fun i => item_after i (clock w (tick w + k))) <$> powerItems w !! k.
Proof.
  rewrite checkCanSleep_eq. cbv zeta.
  change (powerItems (xTimerReset ?x)) with (powerItems x).
  destruct (_ =? 0); [rewrite sleep_branch_powerItems|];
    apply decision_point_items.
Qed.

(** A pass in which some record blocks does not reach the sleep
    branch: the wake timestamps stay as they were and the callback only
    sees the zero-duration requests of the higher-priority modes. *)
Lemma blocked_pass w k i :
  powerItems w !! k = Some i ->
  blocks i (clock w (tick w + k)) = true ->
  (decision_point NO_POWER_MODES w).1.2 = 1 /\
  savedWakeTimestamp (checkCanSleep NO_POWER_MODES w) = savedWakeTimestamp w /\
  exists due,
    cbLog (checkCanSleep NO_POWER_MODES w) = cbLog w ++ map (fun m => (0, m)) due /\
    Forall (fun m => (powerMode w < m < NO_POWER_MODES)%nat /\
                     wakeTs (savedWakeTimestamp w) m <> 0) due.
Proof.
  intros Hk Hb.
  assert (Hs : (scan_phase w).1.2 = 1)
    by (eapply scan_loop_flag_blocked; eassumption).
  rewrite checkCanSleep_eq, decision_point_eq. simpl.
  set (w1 := set_powerItems _ _).
  rewrite (due_loop_flag_stays _ _ w1 Hs). simpl.
  destruct (due_loop_frame (higher_modes NO_POWER_MODES w) (scan_phase w).1.2 w1)
    as ((_ & _ & Hts & _) & _).
  destruct (due_loop_log (higher_modes NO_POWER_MODES w) (scan_phase w).1.2 w1)
    as (due & Hl & Hd & _).
  split; [reflexivity|split; [exact Hts|]].
  exists due. split; [exact Hl|].
  eapply Forall_impl; [exact Hd|]. simpl. intros m [Hin Hnz].
  split; [apply higher_modes_In; exact Hin|exact Hnz].
Qed.

(** The test of line 91: a record that is [ST_ACTIVE] and for which
    the pass computes a positive number of remaining milliseconds keeps
    the pass from the sleep branch. *)
Lemma active_hold_blocks_sleep w k i :
  powerItems w !! k = Some i ->
  state i = ST_ACTIVE ->
  0 < mssleep_of (sleepUntil i) (clock w (tick w + k)) ->
  (decision_point NO_POWER_MODES w).1.2 <> 0 /\
  savedWakeTimestamp (checkCanSleep NO_POWER_MODES w) = savedWakeTimestamp w /\
  exists due,
    cbLog (checkCanSleep NO_POWER_MODES w) = cbLog w ++ map (fun m => (0, m)) due /\
    Forall (fun m => (powerMode w < m < NO_POWER_MODES)%nat /\
                     wakeTs (savedWakeTimestamp w) m <> 0) due.
Proof.
  intros Hk Hst Hms.
  destruct (blocked_pass w k i Hk) as (Hflag & Hts & Hlog).
  - unfold blocks. rewrite Hst. simpl.
    apply Z.ltb_lt in Hms. rewrite Hms. reflexivity.
  - split; [rewrite Hflag; discriminate|split; assumption].
Qed.

(** The test of line 99: a record that is [ST_CANSLEEP_UNTIL] and for
    which the pass computes fewer than 2000 remaining milliseconds is
    [ST_ACTIVE] after the pass and keeps it from the sleep branch. *)
Lemma short_window_promoted w k i :
  powerItems w !! k = Some i ->
  state i = ST_CANSLEEP_UNTIL ->
  mssleep_of (sleepUntil i) (clock w (tick w + k)) < 2000 ->
  powerItems (checkCanSleep NO_POWER_MODES w) !! k = Some (set_state ST_ACTIVE i) /\
  (decision_point NO_POWER_MODES w).1.2 <> 0 /\
  savedWakeTimestamp (checkCanSleep NO_POWER_MODES w) = savedWakeTimestamp w /\
  exists due,
    cbLog (checkCanSleep NO_POWER_MODES w) = cbLog w ++ map (fun m => (0, m)) due /\
    Forall (fun m => (powerMode w < m < NO_POWER_MODES)%nat /\
                     wakeTs (savedWakeTimestamp w) m <> 0) due.
Proof.
  intros Hk Hst Hms.
  apply Z.ltb_lt in Hms.
  split.
  - rewrite checkCanSleep_items, Hk. simpl. f_equal.
    unfold item_after, scan_item. rewrite Hst, Hms. reflexivity.
  - destruct (blocked_pass w k i Hk) as (Hflag & Hts & Hlog).
    + unfold blocks. rewrite Hst, Hms. reflexivity.
    + split; [rewrite Hflag; discriminate|split; assumption].
Qed.

End Pass.

(** ** Passes under a clock that stands still *)

Lemma frozen_frame w w' now :
  frozen w now -> clock w' = clock w -> (tick w <= tick w')%nat -> frozen w' now.
Proof. intros H Hc Ht k Hk. rewrite Hc. apply H. lia. Qed.

Lemma scan_loop_bound_frozen items : forall c b w now,
  frozen w now ->
  (scan_loop items c b w).1.1.2 = fold_left (bound_step now) items c.
Proof.
  induction items as [|i rest IH]; intros c b w now Hf.
  - reflexivity.
  - rewrite scan_loop_cons. simpl.
    rewrite (IH _ _ _ now) by (apply frozen_set_tick; [exact Hf|lia]).
    rewrite scan_item_bound, (Hf (tick w)) by lia. reflexivity.
Qed.


Lemma due_loop_frozen modes : forall b w now,
  frozen w now ->
  (due_loop modes b w).1 =
    (if existsb (is_due (savedWakeTimestamp w) (ms_of now)) modes then 1 else b) /\
  (pdCb w = true ->
   cbLog (due_loop modes b w).2 =
     cbLog w ++ map (fun m => (0, m))
                  (List.filter (is_due (savedWakeTimestamp w) (ms_of now)) modes)).
Proof.
  induction modes as [|i rest IH]; intros b w now Hf.
  - simpl. split; [reflexivity|]. intros _. rewrite app_nil_r. reflexivity.
  - rewrite due_loop_cons. simpl. unfold is_due at 1 3.
    rewrite (Hf (tick w)) by lia.
    destruct (_ =? 0) eqn:Hz; simpl; [apply IH; exact Hf|].
    destruct (_ <? ms_of now) eqn:Hlt; simpl.
    + destruct (IH 1 (doSleep 0 i (set_tick (S (tick w)) w)) now) as [H1 H2].
      { eapply frozen_frame; [exact Hf| |].
        - destruct (doSleep_frame 0 i (set_tick (S (tick w)) w)) as (_&_&_&Hc&_).
          exact Hc.
        - rewrite doSleep_tick. simpl. lia. }
      assert (Hts : savedWakeTimestamp (doSleep 0 i (set_tick (S (tick w)) w))
                    = savedWakeTimestamp w).
      { rewrite doSleep_savedWakeTimestamp. reflexivity. }
      rewrite Hts in H1, H2. split.
      * rewrite H1. destruct (existsb _ _); reflexivity.
      * intros Hcb. rewrite H2.
        -- rewrite doSleep_log by exact Hcb. simpl. rewrite <- app_assoc. reflexivity.
        -- unfold doSleep. simpl. rewrite Hcb. exact Hcb.
    + apply (IH b (set_tick (S (tick w)) w) now).
      apply frozen_set_tick; [exact Hf|lia].
Qed.

Lemma existsb_false_filter {A} (f : A -> bool) l :
  (forall x, In x l -> f x = false) ->
  existsb f l = false /\ List.filter f l = [].
Proof.
  induction l as [|a l IH]; intros H; simpl; [auto|].
  rewrite (H a) by (left; reflexivity). simpl. apply IH.
  intros x Hx. apply H. right. exact Hx.
Qed.

(** ** The sleep branch *)

Lemma nearest_loop_stays ts modes : forall near,
  (forall m, In m modes -> wakeTs ts m = 0 \/ wakeTs ts near <= wakeTs ts m) ->
  nearest_loop ts modes near = near.
Proof.
  induction modes as [|i rest IH]; intros near H; simpl; [reflexivity|].
  destruct (H i (or_introl eq_refl)) as [Hz|Hle].
  - rewrite Hz. simpl. apply IH. intros m Hm. apply H. right. exact Hm.
  - replace (wakeTs ts i <? wakeTs ts near) with false
      by (symmetry; apply Z.ltb_ge; exact Hle).
    rewrite andb_false_r. apply IH. intros m Hm. apply H. right. exact Hm.
Qed.

Section FreePass.

Variable NO_POWER_MODES : nat.

Lemma sleep_branch_ts c w :
  savedWakeTimestamp (sleep_branch NO_POWER_MODES c w) =
  <[powerMode w := uint64 (ms_of (clock w (tick w)) + c)]> (savedWakeTimestamp w).
Proof.
  unfold sleep_branch. simpl. destruct (_ =? _)%nat; simpl;
    unfold doSleep; simpl; destruct (pdCb w); reflexivity.
Qed.

Lemma sleep_branch_log c w :
  pdCb w = true ->
  cbLog (sleep_branch NO_POWER_MODES c w) =
  cbLog w ++
  [let ts := <[powerMode w := uint64 (ms_of (clock w (tick w)) + c)]>
               (savedWakeTimestamp w) in
   let nearestMode := nearestMode_of NO_POWER_MODES ts in
   (if (nearestMode =? powerMode w)%nat then c
    else int32 (uint64 (wakeTs ts nearestMode - ms_of (clock w (S (tick w))))),
    nearestMode)].
Proof.
  intros Hcb. unfold sleep_branch. simpl. destruct (_ =? _)%nat; simpl;
    unfold doSleep; simpl; rewrite Hcb; reflexivity.
Qed.

(** A pass under a frozen clock in which no record blocks and no
    higher-priority mode fires reaches the sleep branch with the bound
    the scan computed. *)
Lemma free_pass w now :
  frozen w now ->
  (forall i, In i (powerItems w) -> blocks i now = false) ->
  (forall m, (powerMode w < m < NO_POWER_MODES)%nat ->
             is_due (savedWakeTimestamp w) (ms_of now) m = false) ->
  let d := decision_point NO_POWER_MODES w in
  d.1.2 = 0 /\
  d.1.1 = fold_left (bound_step now) (powerItems w) (-1) /\
  frame w d.2 /\ frozen d.2 now /\ cbLog d.2 = cbLog w /\
  checkCanSleep NO_POWER_MODES w =
    xTimerReset (sleep_branch NO_POWER_MODES d.1.1 d.2).
Proof.
  intros Hf Hfree Hdue.
  assert (Hflag : (scan_phase w).1.2 = 0).
  { apply scan_loop_flag_free. intros k i Hk.
    rewrite (Hf (tick w + k)%nat) by lia. apply Hfree.
    apply list_elem_of_In. eapply list_elem_of_lookup_2. exact Hk. }
  assert (Hbound : (scan_phase w).1.1.2
                   = fold_left (bound_step now) (powerItems w) (-1))
    by (apply scan_loop_bound_frozen; exact Hf).
  cbv zeta. rewrite checkCanSleep_eq, decision_point_eq. cbv zeta.
  set (w1 := set_powerItems _ _).
  assert (Hf1 : frozen w1 now)
    by (eapply frozen_frame; [exact Hf|reflexivity|simpl; lia]).
  destruct (due_loop_frozen (higher_modes NO_POWER_MODES w)
              (scan_phase w).1.2 w1 now Hf1) as [Hd1 Hd2].
  destruct (existsb_false_filter
              (is_due (savedWakeTimestamp w1) (ms_of now))
              (higher_modes NO_POWER_MODES w)) as [He Hfil].
  { intros m Hm. apply Hdue. apply higher_modes_In. exact Hm. }
  rewrite He in Hd1.
  destruct (due_loop_frame (higher_modes NO_POWER_MODES w)
              (scan_phase w).1.2 w1) as (Hfr & _ & Ht).
  destruct (due_loop_log (higher_modes NO_POWER_MODES w)
              (scan_phase w).1.2 w1) as (due & Hl & _ & Hb).
  rewrite Hflag in Hd1, Hfr, Ht, Hl, Hb. simpl. rewrite Hflag, Hd1. simpl.
  split; [reflexivity|]. split; [exact Hbound|].
  split; [eapply frame_trans; [|exact Hfr]; repeat split|]. split.
  - eapply frozen_frame; [exact Hf1| |exact Ht].
    destruct Hfr as (_&_&_&Hc&_). exact Hc.
  - split; [|reflexivity].
    destruct Hb as [Hb|[_ ->]]; [congruence|].
    rewrite Hl. simpl. rewrite app_nil_r. reflexivity.
Qed.

End FreePass.

(** ** Timed permissions and the sleep bound *)

Lemma blocks_false i now :
  (state i = ST_ACTIVE -> mssleep_of (sleepUntil i) now <= 0) ->
  (state i = ST_CANSLEEP_UNTIL -> 2000 <= mssleep_of (sleepUntil i) now) ->
  blocks i now = false.
Proof.
  intros Ha Hu. unfold blocks. apply orb_false_iff. split.
  - destruct (state i =? ST_ACTIVE) eqn:E; [|reflexivity].
    apply Z.eqb_eq in E. simpl. apply Z.ltb_ge. auto.
  - destruct (state i =? ST_CANSLEEP_UNTIL) eqn:E; [|reflexivity].
    apply Z.eqb_eq in E. simpl. apply Z.ltb_ge. auto.
Qed.

Lemma is_due_false ts now m :
  wakeTs ts m = 0 \/ now <= wakeTs ts m -> is_due ts now m = false.
Proof.
  unfold is_due. intros [H|H].
  - rewrite H. reflexivity.
  - apply andb_false_iff. right. apply Z.ltb_ge. exact H.
Qed.


Section Bound.

Variable NO_POWER_MODES : nat.


(** C5, amended.  Under a clock that stands at [now] during the pass
    and with a callback installed: if a mode above the current one has
    a nonzero wake timestamp strictly before [now], the callback is
    invoked with duration 0 for that mode, the flag tested at line 128
    is set, no wake timestamp is written, and the only invocations of
    the pass are the zero-duration requests of the higher-priority
    modes. *)
Theorem due_mode_dispatched w now m :
  frozen w now ->
  pdCb w = true ->
  (powerMode w < m < NO_POWER_MODES)%nat ->
  wakeTs (savedWakeTimestamp w) m <> 0 ->
  wakeTs (savedWakeTimestamp w) m < ms_of now ->
  (decision_point NO_POWER_MODES w).1.2 <> 0 /\
  savedWakeTimestamp (checkCanSleep NO_POWER_MODES w) = savedWakeTimestamp w /\
  exists due,
    cbLog (checkCanSleep NO_POWER_MODES w) = cbLog w ++ map (fun k => (0, k)) due /\
    In m due /\
    Forall (fun k => (powerMode w < k < NO_POWER_MODES)%nat) due.
Proof.
  intros Hf Hcb Hm Hnz Hlt.
  rewrite checkCanSleep_eq, decision_point_eq. cbv zeta.
  set (w1 := set_powerItems _ _).
  assert (Hf1 : frozen w1 now)
    by (eapply frozen_frame; [exact Hf|reflexivity|simpl; lia]).
  destruct (due_loop_frozen (higher_modes NO_POWER_MODES w)
              (scan_phase w).1.2 w1 now Hf1) as [Hd1 Hd2].
  specialize (Hd2 Hcb).
  destruct (due_loop_frame (higher_modes NO_POWER_MODES w)
              (scan_phase w).1.2 w1) as ((_ & _ & Hts & _) & _).
  assert (Hisdue : is_due (savedWakeTimestamp w1) (ms_of now) m = true).
  { unfold is_due. apply andb_true_iff. split.
    - apply negb_true_iff. apply Z.eqb_neq. exact Hnz.
    - apply Z.ltb_lt. exact Hlt. }
  assert (Hex : existsb (is_due (savedWakeTimestamp w1) (ms_of now))
                  (higher_modes NO_POWER_MODES w) = true).
  { apply existsb_exists. exists m. split; [|exact Hisdue].
    apply higher_modes_In. exact Hm. }
  rewrite Hex in Hd1. simpl. rewrite Hd1. simpl.
  split; [discriminate|]. split; [exact Hts|].
  exists (List.filter (is_due (savedWakeTimestamp w1) (ms_of now))
            (higher_modes NO_POWER_MODES w)).
  split; [exact Hd2|]. split.
  - apply filter_In. split; [apply higher_modes_In; exact Hm|exact Hisdue].
  - apply List.Forall_forall. intros k Hk. apply filter_In in Hk as [Hk _].
    apply higher_modes_In. exact Hk.
Qed.


End Bound.

(** ** The registry *)

Lemma find_index_Some r l : forall p,
  find_index r l = Some p -> exists i, l !! p = Some i /\ ref i = r.
Proof.
  induction l as [|i l IH]; intros p H; simpl in H; [discriminate|].
  destruct (ref i =? r) eqn:E.
  - injection H as <-. exists i. split; [reflexivity|]. apply Z.eqb_eq. exact E.
  - destruct (find_index r l) as [q|]; simpl in H; [|discriminate].
    injection H as <-. simpl. apply IH. reflexivity.
Qed.

Lemma find_index_alter r f l : forall p,
  (forall i, ref (f i) = ref i) ->
  find_index r (alter f p l) = find_index r l.
Proof.
  induction l as [|i l IH]; intros p Hf; [reflexivity|].
  destruct p as [|p].
  - change (alter f 0%nat (i :: l)) with (f i :: l). simpl.
    rewrite Hf. reflexivity.
  - change (alter f (S p) (i :: l)) with (i :: alter f p l). simpl.
    rewrite (IH p Hf). reflexivity.
Qed.

Lemma item_of_alter r r' f p l :
  (forall i, ref (f i) = ref i) ->
  find_index r l = Some p ->
  item_of r' (alter f p l) =
  if r' =? r then f <$> item_of r' l else item_of r' l.
Proof.
  intros Hf Hp. unfold item_of. rewrite find_index_alter by exact Hf.
  destruct (r' =? r) eqn:E.
  - apply Z.eqb_eq in E. subst r'. rewrite Hp. simpl.
    apply list_lookup_alter_eq.
  - apply Z.eqb_neq in E. destruct (find_index r' l) as [q|] eqn:Hq; simpl;
      [|reflexivity].
    apply list_lookup_alter_ne. intros ->.
    destruct (find_index_Some _ _ _ Hp) as (i & Hi & Hri).
    destruct (find_index_Some _ _ _ Hq) as (j & Hj & Hrj).
    congruence.
Qed.

Lemma item_of_ref r l i : item_of r l = Some i -> ref i = r.
Proof.
  unfold item_of. destruct (find_index r l) as [p|] eqn:Hp; simpl; [|discriminate].
  destruct (find_index_Some _ _ _ Hp) as (j & Hj & Hr). congruence.
Qed.

Lemma findItem_found r w :
  find_index r (powerItems (findItem r w).2) = Some (findItem r w).1.
Proof.
  unfold findItem. destruct (find_index r (powerItems w)) eqn:E; simpl.
  - exact E.
  - rewrite Z.eqb_refl. reflexivity.
Qed.

Lemma findItem_item_of r w r' :
  item_of r' (powerItems (findItem r w).2) =
  if r' =? r then Some (default (new_item r) (item_of r (powerItems w)))
  else item_of r' (powerItems w).
Proof.
  unfold findItem. destruct (find_index r (powerItems w)) as [p|] eqn:E; simpl.
  - destruct (r' =? r) eqn:Er; [|reflexivity].
    apply Z.eqb_eq in Er. subst r'. unfold item_of. rewrite E. simpl.
    destruct (find_index_Some _ _ _ E) as (i & Hi & _). rewrite Hi. reflexivity.
  - unfold item_of. simpl. rewrite (Z.eqb_sym r' r).
    destruct (r =? r') eqn:Er.
    + apply Z.eqb_eq in Er. subst r'. rewrite E. reflexivity.
    + destruct (find_index r' (powerItems w)); reflexivity.
Qed.

Lemma findItem_rest r w :
  (findItem r w).2 = set_powerItems (powerItems (findItem r w).2) w.
Proof.
  unfold findItem. destruct (find_index r (powerItems w)); simpl; [|reflexivity].
  destruct w; reflexivity.
Qed.

(** What a store through the pointer [findItem] returns does to the
    registry, for a store that leaves [ref] alone. *)
Lemma touch_item_of r f w r' :
  (forall i, ref (f i) = ref i) ->
  item_of r' (alter f (findItem r w).1 (powerItems (findItem r w).2)) =
  if r' =? r then Some (f (default (new_item r) (item_of r (powerItems w))))
  else item_of r' (powerItems w).
Proof.
  intros Hf. rewrite (item_of_alter r r' f _ _ Hf (findItem_found r w)).
  rewrite findItem_item_of. destruct (r' =? r); reflexivity.
Qed.

Lemma map_ref_scan items c b w :
  map ref (scan_loop items c b w).1.1.1 = map ref items.
Proof.
  apply list_eq. intros k.
  change (map ref) with (fmap (M := list) ref).
  rewrite !list_lookup_fmap, scan_loop_items.
  destruct (items !! k); simpl; [|reflexivity].
  rewrite item_after_ref. reflexivity.
Qed.

Lemma find_index_refs r l : forall l',
  map ref l = map ref l' -> find_index r l = find_index r l'.
Proof.
  induction l as [|i l IH]; intros [|i' l'] H; simpl in *; try discriminate;
    [reflexivity|].
  injection H as Hr Hl. rewrite Hr, (IH l' Hl). reflexivity.
Qed.

Lemma deadline_after_us now ms :
  us_of (deadline_after now ms) = us_of now + 1000 * ms.
Proof.
  unfold deadline_after, us_of.
  pose proof (Z.quot_rem' ms 1000) as H.
  destruct (1000000 <? _); simpl; lia.
Qed.

Section Owners.

Variable NO_POWER_MODES : nat.

(** A record in [ST_CANSLEEP] comes out of a pass as it went in. *)
Lemma checkCanSleep_keeps_idle r w i :
  item_of r (powerItems w) = Some i ->
  state i = ST_CANSLEEP ->
  item_of r (powerItems (checkCanSleep NO_POWER_MODES w)) = Some i.
Proof.
  intros Hi Hs. unfold item_of in *.
  destruct (find_index r (powerItems w)) as [p|] eqn:Hp; simpl in Hi;
    [|discriminate].
  assert (Hidx : find_index r (powerItems (checkCanSleep NO_POWER_MODES w))
                 = Some p).
  { rewrite <- Hp. apply find_index_refs. apply list_eq. intros k.
    change (map ref) with (fmap (M := list) ref).
    rewrite !list_lookup_fmap, checkCanSleep_items.
    destruct (powerItems w !! k); simpl; [|reflexivity].
    rewrite item_after_ref. reflexivity. }
  rewrite Hidx. simpl. rewrite checkCanSleep_items, Hi. simpl. f_equal.
  unfold item_after, scan_item. rewrite Hs. reflexivity.
Qed.

Lemma run_call_keeps_idle r c w i :
  owner_quiet r c ->
  item_of r (powerItems w) = Some i ->
  state i = ST_CANSLEEP ->
  exists j, item_of r (powerItems (run_call NO_POWER_MODES w c)) = Some j /\
            state j = ST_CANSLEEP.
Proof.
  intros Hq Hi Hs. destruct c as [r' ms|r' ms|r'|]; simpl in *.
  - exists i. split; [|exact Hs]. unfold _powerHold.
    destruct (findItem r' w) as [p w1] eqn:E. simpl.
    pose proof (touch_item_of r' (set_sleepUntil
                  (deadline_after (clock w1 (tick w1)) ms)) w r
                  (fun _ => eq_refl)) as H1.
    rewrite E in H1. simpl in H1.
    pose proof (findItem_found r' w) as Hfound. rewrite E in Hfound.
    simpl in Hfound.
    rewrite (item_of_alter r' r (set_state ST_ACTIVE) p)
      by (auto; rewrite find_index_alter by auto; exact Hfound).
    rewrite H1. apply Z.eqb_neq in Hq. rewrite Z.eqb_sym in Hq.
    rewrite Hq. exact Hi.
  - exists i. split; [|exact Hs]. unfold _powerCanSleepFor.
    destruct (findItem r' w) as [p w1] eqn:E. simpl.
    apply checkCanSleep_keeps_idle; [|exact Hs]. simpl.
    pose proof (touch_item_of r' (set_sleepUntil
                  (deadline_after (clock w1 (tick w1)) ms)) w r
                  (fun _ => eq_refl)) as H1.
    rewrite E in H1. simpl in H1.
    pose proof (findItem_found r' w) as Hfound. rewrite E in Hfound.
    simpl in Hfound.
    rewrite (item_of_alter r' r (set_state ST_CANSLEEP_UNTIL) p)
      by (auto; rewrite find_index_alter by auto; exact Hfound).
    rewrite H1. apply Z.eqb_neq in Hq. rewrite Z.eqb_sym in Hq.
    rewrite Hq. exact Hi.
  - unfold _powerCanSleep.
    destruct (findItem r' w) as [p w1] eqn:E. simpl.
    pose proof (touch_item_of r' (set_state ST_CANSLEEP) w r
                  (fun _ => eq_refl)) as H1.
    rewrite E in H1. simpl in H1.
    destruct (r =? r') eqn:Er.
    + eexists. split; [apply checkCanSleep_keeps_idle; [exact H1|]|];
        reflexivity.
    + exists i. split; [|exact Hs].
      apply checkCanSleep_keeps_idle; [|exact Hs]. simpl. congruence.
  - exists i. split; [|exact Hs]. unfold pwrdwnmgrTimer.
    apply checkCanSleep_keeps_idle; assumption.
Qed.

Lemma run_keeps_idle r cs : forall w i,
  Forall (owner_quiet r) cs ->
  item_of r (powerItems w) = Some i ->
  state i = ST_CANSLEEP ->
  exists j, item_of r (powerItems (run NO_POWER_MODES cs w)) = Some j /\
            state j = ST_CANSLEEP.
Proof.
  induction cs as [|c cs IH]; intros w i Hq Hi Hs; simpl.
  - exists i. auto.
  - inversion Hq as [|c' cs' Hc Hcs]; subst.
    destruct (run_call_keeps_idle r c w i Hc Hi Hs) as (j & Hj & Hsj).
    apply (IH _ j Hcs Hj Hsj).
Qed.

(** C8.  After [_powerCanSleep r], and through any further calls that
    are not a hold (or a timed permission) of owner [r] - further
    [_powerCanSleep r], calls of other owners, timer passes - the
    record of [r] is in [ST_CANSLEEP], and an iteration of the scan
    over it changes neither the record nor [cannotSleep] nor
    [canSleepForMs]. *)
Theorem permit_sleep_never_blocks r cs w :
  Forall (owner_quiet r) cs ->
  exists i,
    item_of r (powerItems (run NO_POWER_MODES cs (_powerCanSleep NO_POWER_MODES r w)))
      = Some i /\
    state i = ST_CANSLEEP /\
    forall now c b, scan_item i now c b = (i, c, b).
Proof.
  intros Hq.
  assert (H0 : item_of r (powerItems (_powerCanSleep NO_POWER_MODES r w))
               = Some (set_state ST_CANSLEEP
                         (default (new_item r) (item_of r (powerItems w))))).
  { unfold _powerCanSleep.
    pose proof (touch_item_of r (set_state ST_CANSLEEP) w r
                  (fun _ => eq_refl)) as H1.
    destruct (findItem r w) as [p w1]. simpl in H1.
    rewrite Z.eqb_refl in H1.
    apply checkCanSleep_keeps_idle; [exact H1|reflexivity]. }
  destruct (run_keeps_idle r cs _ _ Hq H0 eq_refl) as (j & Hj & Hs).
  exists j. split; [exact Hj|]. split; [exact Hs|].
  intros now c b. unfold scan_item. rewrite Hs. reflexivity.
Qed.

(** A promoted record keeps its deadline, and a later pass that
    computes no remaining millisecond for it demotes it. *)
Lemma promotion_block_ends w k i :
  powerItems w !! k = Some i ->
  state i = ST_CANSLEEP_UNTIL ->
  mssleep_of (sleepUntil i) (clock w (tick w + k)) < 2000 ->
  exists i1,
    powerItems (checkCanSleep NO_POWER_MODES w) !! k = Some i1 /\
    state i1 = ST_ACTIVE /\ sleepUntil i1 = sleepUntil i /\ ref i1 = ref i /\
    forall w2 k2,
      powerItems w2 !! k2 = Some i1 ->
      mssleep_of (sleepUntil i) (clock w2 (tick w2 + k2)) <= 0 ->
      powerItems (checkCanSleep NO_POWER_MODES w2) !! k2
        = Some (set_state ST_CANSLEEP i) /\
      forall c b, scan_item i1 (clock w2 (tick w2 + k2)) c b
                  = (set_state ST_CANSLEEP i, c, b).
Proof.
  intros Hk Hst Hms. exists (set_state ST_ACTIVE i).
  apply Z.ltb_lt in Hms.
  split.
  { rewrite checkCanSleep_items, Hk. simpl. f_equal.
    unfold item_after, scan_item. rewrite Hst, Hms. reflexivity. }
  do 3 (split; [reflexivity|]).
  intros w2 k2 Hk2 Hms2. apply Z.ltb_ge in Hms2.
  assert (Hscan : forall c b,
            scan_item (set_state ST_ACTIVE i) (clock w2 (tick w2 + k2)) c b
            = (set_state ST_CANSLEEP i, c, b)).
  { intros c b. unfold scan_item. simpl. rewrite Hms2. reflexivity. }
  split; [|exact Hscan].
  rewrite checkCanSleep_items, Hk2. simpl. f_equal.
  unfold item_after. rewrite Hscan. reflexivity.
Qed.

End Owners.

(** C9.  [_powerHold r ms] leaves the record of [r] in [ST_ACTIVE] with
    a deadline [ms] milliseconds after the clock reading it takes, and
    nothing else: the record of every other owner is what it was, the
    callback log, the wake timestamps, the power mode and the installed
    callback are unchanged, and the timer is not reset - no pass ran. *)
Theorem hold_only_rearms_owner r ms w :
  (exists i,
     item_of r (powerItems (_powerHold r ms w)) = Some i /\
     ref i = r /\ state i = ST_ACTIVE /\
     us_of (sleepUntil i) = us_of (clock w (tick w)) + 1000 * ms) /\
  (forall r', r' <> r ->
     item_of r' (powerItems (_powerHold r ms w)) = item_of r' (powerItems w)) /\
  cbLog (_powerHold r ms w) = cbLog w /\
  savedWakeTimestamp (_powerHold r ms w) = savedWakeTimestamp w /\
  powerMode (_powerHold r ms w) = powerMode w /\
  pdCb (_powerHold r ms w) = pdCb w /\
  tmrResets (_powerHold r ms w) = tmrResets w.
Proof.
  unfold _powerHold.
  pose proof (findItem_found r w) as Hfound.
  pose proof (findItem_rest r w) as Hrest.
  pose proof (fun f Hf r' => touch_item_of r f w r' Hf) as Htouch.
  destruct (findItem r w) as [p w1]. simpl in *.
  assert (Hclock : clock w1 (tick w1) = clock w (tick w)) by (rewrite Hrest; reflexivity).
  rewrite Hclock.
  set (dl := deadline_after (clock w (tick w)) ms).
  assert (Hitem : forall r',
            item_of r' (alter (set_state ST_ACTIVE) p
                          (alter (set_sleepUntil dl) p (powerItems w1))) =
            if r' =? r
            then Some (set_state ST_ACTIVE (set_sleepUntil dl
                         (default (new_item r) (item_of r (powerItems w)))))
            else item_of r' (powerItems w)).
  { intros r'.
    rewrite (item_of_alter r r' (set_state ST_ACTIVE) p)
      by (auto; rewrite find_index_alter by auto; exact Hfound).
    rewrite (Htouch (set_sleepUntil dl) (fun _ => eq_refl) r').
    destruct (r' =? r); reflexivity. }
  split; [|split].
  - eexists. split; [rewrite Hitem, Z.eqb_refl; reflexivity|].
    split; [|split; [reflexivity|apply deadline_after_us]].
    simpl. destruct (item_of r (powerItems w)) as [j|] eqn:Hj; simpl;
      [apply (item_of_ref _ _ _ Hj)|reflexivity].
  - intros r' Hne. rewrite Hitem. apply Z.eqb_neq in Hne. rewrite Hne.
    reflexivity.
  - rewrite Hrest. simpl. repeat split.
Qed.

(** ** The choice of the nearest mode *)

(** Once the candidate has a nonzero timestamp, the loop ends on the
    first mode holding the least nonzero timestamp. *)
Lemma nearest_loop_least ts len : forall a near,
  first_least ts a near ->
  first_least ts (a + len) (nearest_loop ts (seq a len) near).
Proof.
  induction len as [|len IH]; intros a near (Ha & Hnz & Hlo & Hhi); simpl.
  - rewrite Nat.add_0_r. repeat split; assumption.
  - rewrite Nat.add_succ_r. change (S (a + len)) with (S a + len)%nat.
    destruct (negb (wakeTs ts a =? 0) && (wakeTs ts a <? wakeTs ts near)) eqn:E;
      apply IH.
    + apply andb_true_iff in E as [E1 E2]. apply negb_true_iff in E1.
      apply Z.eqb_neq in E1. apply Z.ltb_lt in E2.
      split; [lia|]. split; [exact E1|]. split; [|intros m Hm; lia].
      intros m Hm.
      destruct (Nat.lt_total m near) as [Hlt|[->|Hgt]].
      * destruct (Hlo m Hlt) as [Hz|Hl]; [left; exact Hz|right; lia].
      * right. exact E2.
      * destruct (Hhi m) as [Hz|Hl]; [lia|left; exact Hz|right; lia].
    + split; [lia|]. split; [exact Hnz|]. split; [exact Hlo|].
      intros m Hm. destruct (Nat.eq_dec m a) as [->|Hne]; [|apply Hhi; lia].
      apply andb_false_iff in E as [E|E].
      * left. apply negb_false_iff in E. apply Z.eqb_eq in E. exact E.
      * right. apply Z.ltb_ge in E. exact E.
Qed.

(** The search of lines 131-136 is right whenever slot 0 is not zero. *)
Lemma nearestMode_of_least n ts :
  (0 < n)%nat -> wakeTs ts 0 <> 0 -> first_least ts n (nearestMode_of n ts).
Proof.
  intros Hn Hnz. unfold nearestMode_of. destruct n as [|n]; [lia|].
  simpl. rewrite Z.ltb_irrefl, andb_false_r.
  change (S n) with (1 + n)%nat. apply nearest_loop_least.
  split; [lia|]. split; [exact Hnz|]. split; intros m Hm; lia.
Qed.

(** With slot 0 at zero no unsigned value compares below it: mode 0 is
    chosen whatever the other slots hold. *)
Lemma nearestMode_of_zero n ts :
  (forall m, 0 <= wakeTs ts m) -> wakeTs ts 0 = 0 -> nearestMode_of n ts = 0%nat.
Proof.
  intros Hpos Hz. unfold nearestMode_of. apply nearest_loop_stays.
  intros m _. right. rewrite Hz. apply Hpos.
Qed.

(** ** The number of callback invocations *)

(** A pass invokes the callback once for every higher-priority mode it
    finds due and, only when it found none, at most once more from the
    sleep branch. *)
Lemma pass_invocations n w :
  exists due rest,
    cbLog (checkCanSleep n w) = cbLog w ++ map (fun m => (0, m)) due ++ rest /\
    (length rest <= 1)%nat /\ (due <> [] -> rest = []).
Proof.
  rewrite checkCanSleep_eq, decision_point_eq. cbv zeta.
  set (w1 := set_powerItems _ _).
  destruct (due_loop_log (higher_modes n w) (scan_phase w).1.2 w1)
    as (due & Hl & _ & Hb).
  destruct (due_loop_frame (higher_modes n w) (scan_phase w).1.2 w1)
    as ((Hcb & _) & _).
  change (cbLog (xTimerReset ?x)) with (cbLog x). simpl.
  destruct (_ =? 0) eqn:E.
  - apply Z.eqb_eq in E. destruct Hb as [Hb|[_ ->]]; [congruence|].
    simpl in Hl. rewrite app_nil_r in Hl.
    destruct (pdCb w) eqn:Hp.
    + rewrite sleep_branch_log by (rewrite Hcb; exact Hp). rewrite Hl.
      eexists [], [_]. simpl. split; [reflexivity|]. split; [lia|congruence].
    + exists [], []. simpl. rewrite app_nil_r. split; [|split; [lia|reflexivity]].
      rewrite <- Hl. unfold sleep_branch. simpl.
      destruct (_ =? _)%nat; unfold doSleep; simpl; rewrite Hcb; simpl;
        rewrite Hp; reflexivity.
  - exists due, []. rewrite app_nil_r. split; [exact Hl|]. split; [simpl; lia|reflexivity].
Qed.

(** C4.  Running in mode 1 with an empty wake table, a pass that
    authorizes sleep writes 13000 into slot 1, the only nonzero wake
    timestamp; the search nevertheless ends on mode 0, whose slot is
    zero, and the callback is asked to switch to mode 0 after
    [0 - now] ms. *)
Theorem nearest_mode_zero_slot_chosen :
  let w' := checkCanSleep 2 w_mode1 in
  savedWakeTimestamp w' = [0; 13000] /\
  first_least (savedWakeTimestamp w') 2 1 /\
  nearestMode_of 2 (savedWakeTimestamp w') = 0%nat /\
  cbLog w' = [(-10000, 0%nat)].
Proof.
  cbv zeta. split; [vm_compute; reflexivity|].
  split; [|split; vm_compute; reflexivity].
  replace (savedWakeTimestamp (checkCanSleep 2 w_mode1)) with [0; 13000]
    by (vm_compute; reflexivity).
  split; [lia|]. split; [vm_compute; discriminate|].
  split; intros m Hm.
  - assert (m = 0%nat) as -> by lia. left. reflexivity.
  - lia.
Qed.

(** C6.  With three modes and both higher-priority modes overdue, one
    pass invokes the callback twice. *)
Theorem two_due_modes_two_invocations :
  cbLog (checkCanSleep 3 w_two_due) = [(0, 1%nat); (0, 2%nat)].
Proof. vm_compute. reflexivity. Qed.

(** ** The statements at concrete worlds *)

Lemma frozen_boot mode ts items now : frozen (boot mode ts items now) now.
Proof. intros k _. reflexivity. Qed.

(** A timed permission of 3000 ms from the only owner: the callback is
    asked to sleep 3000 ms in the current mode. *)
Example permit_3000_alone :
  cbLog (_powerCanSleepFor 2 5 3000 (boot 0 [0; 0] [] (at_ms 10000)))
  = [(3000, 0%nat)] /\
  savedWakeTimestamp (_powerCanSleepFor 2 5 3000 (boot 0 [0; 0] [] (at_ms 10000)))
  = [13000; 0].
Proof. split; vm_compute; reflexivity. Qed.

(** A timed permission of 1500 ms: the owner is active again and the
    callback is not invoked. *)
Example permit_1500_promoted :
  cbLog (_powerCanSleepFor 2 5 1500 (boot 0 [0; 0] [] (at_ms 10000))) = [] /\
  (state <$> item_of 5 (powerItems
     (_powerCanSleepFor 2 5 1500 (boot 0 [0; 0] [] (at_ms 10000)))))
  = Some ST_ACTIVE.
Proof. split; vm_compute; reflexivity. Qed.

(** Mode 1 overdue: the next pass asks for an immediate switch to it. *)
Example overdue_mode_1 :
  cbLog (pwrdwnmgrTimer 2 w_due) = [(0, 1%nat)].
Proof. vm_compute. reflexivity. Qed.


Lemma due_mode_dispatched_witness :
  (decision_point 2 w_due).1.2 <> 0 /\
  savedWakeTimestamp (checkCanSleep 2 w_due) = savedWakeTimestamp w_due /\
  exists due,
    cbLog (checkCanSleep 2 w_due) = cbLog w_due ++ map (fun k => (0, k)) due /\
    In 1%nat due /\
    Forall (fun k => (powerMode w_due < k < 2)%nat) due.
Proof.
  apply (due_mode_dispatched 2 w_due (at_ms 10000) 1).
  - apply frozen_boot.
  - reflexivity.
  - simpl. lia.
  - vm_compute. discriminate.
  - vm_compute. reflexivity.
Defined.


Lemma permit_sleep_never_blocks_witness :
  exists i,
    item_of 7 (powerItems (run 2 [CanSleep 7; Timer; Hold 8 1000; CanSleep 7]
                             (_powerCanSleep 2 7 w_hold))) = Some i /\
    state i = ST_CANSLEEP /\
    forall now c b, scan_item i now c b = (i, c, b).
Proof.
  apply (permit_sleep_never_blocks 2 7 [CanSleep 7; Timer; Hold 8 1000; CanSleep 7] w_hold).
  repeat constructor. simpl. lia.
Defined.

(** ** Where the specification and the code part *)


(** C5 as stated fails: the wake timestamp of mode 1 is nonzero and
    equal to [now], and the pass does not invoke the callback for mode
    1 but goes on to the sleep branch. *)
Lemma due_at_now_not_dispatched :
  frozen w_due_now (at_ms 10000) /\
  (powerMode w_due_now < 1 < 2)%nat /\
  wakeTs (savedWakeTimestamp w_due_now) 1 <> 0 /\
  wakeTs (savedWakeTimestamp w_due_now) 1 <= ms_of (at_ms 10000) /\
  ~ In (0, 1%nat) (cbLog (checkCanSleep 2 w_due_now)) /\
  cbLog (checkCanSleep 2 w_due_now) = [(-1, 0%nat)] /\
  savedWakeTimestamp (checkCanSleep 2 w_due_now) = [9999; 10000].
Proof.
  split; [apply frozen_boot|].
  split; [simpl; lia|].
  split; [vm_compute; discriminate|].
  split; [vm_compute; discriminate|].
  split; [|split; vm_compute; reflexivity].
  replace (cbLog (checkCanSleep 2 w_due_now)) with [(-1, 0%nat)]
    by (vm_compute; reflexivity).
  intros [H|[]]. discriminate H.
Qed.



(** * Further properties of the code *)

(** ** Time arithmetic *)

Lemma int32_add_l a b : int32 (int32 a + b) = int32 (a + b).
Proof.
  unfold int32. f_equal.
  replace ((a + 2 ^ 31) mod 2 ^ 32 - 2 ^ 31 + b + 2 ^ 31)
    with ((a + 2 ^ 31) mod 2 ^ 32 + b) by lia.
  rewrite Zplus_mod_idemp_l. f_equal. lia.
Qed.

Lemma mssleep_of_deadline_after now ms :
  - 2 ^ 31 <= ms < 2 ^ 31 ->
  mssleep_of (deadline_after now ms) now = ms.
Proof.
  intros Hms. unfold mssleep_of. cbv zeta. rewrite int32_add_l.
  transitivity (int32 ms); [f_equal|apply int32_small; exact Hms].
  pose proof (Z.quot_rem' ms 1000) as Hqr.
  unfold deadline_after. destruct (1000000 <? _); simpl.
  - replace (tv_usec now + Z.rem ms 1000 * 1000 - 1000000 - tv_usec now)
      with ((Z.rem ms 1000 - 1000) * 1000) by lia.
    rewrite Z.quot_mul by lia. lia.
  - replace (tv_usec now + Z.rem ms 1000 * 1000 - tv_usec now)
      with (Z.rem ms 1000 * 1000) by lia.
    rewrite Z.quot_mul by lia. lia.
Qed.

(** X1.  The remaining time computed against the very reading a
    deadline was derived from is the number of milliseconds that was
    added, for every [int] value of it: lines 87-88 invert lines
    152-158 (and 171-177), carry or no carry. *)
Theorem deadline_round_trip now ms :
  - 2 ^ 31 <= ms < 2 ^ 31 ->
  mssleep_of (deadline_after now ms) now = ms.
Proof. apply mssleep_of_deadline_after. Qed.

Lemma deadline_round_trip_witness :
  mssleep_of (deadline_after (at_ms 10999) 1501) (at_ms 10999) = 1501.
Proof. apply deadline_round_trip. lia. Defined.

(** X2.  For a normalized reading and a delay that is not negative the
    microseconds of the deadline lie between 0 and 1000000, both
    included: the carry of lines 155-158 is taken only above 1000000,
    so exactly 1000000 microseconds are left in place. *)
Theorem deadline_usec_range now ms :
  0 <= tv_usec now < 1000000 -> 0 <= ms ->
  0 <= tv_usec (deadline_after now ms) <= 1000000 /\
  (tv_usec (deadline_after now ms) = 1000000 <->
   tv_usec now + Z.rem ms 1000 * 1000 = 1000000).
Proof.
  intros Hn Hms.
  pose proof (Z.rem_bound_pos ms 1000 Hms ltac:(lia)) as Hr.
  unfold deadline_after. destruct (1000000 <? _) eqn:E; simpl.
  - apply Z.ltb_lt in E. lia.
  - apply Z.ltb_ge in E. lia.
Qed.

Lemma deadline_usec_range_witness :
  0 <= tv_usec (deadline_after (at_ms 10500) 500) <= 1000000 /\
  (tv_usec (deadline_after (at_ms 10500) 500) = 1000000 <->
   tv_usec (at_ms 10500) + Z.rem 500 1000 * 1000 = 1000000).
Proof.
  apply deadline_usec_range; [vm_compute; split; [discriminate|reflexivity]|lia].
Defined.

(** X3.  For a normalized reading after the epoch [getCurrentTimeMs]
    returns the time in whole milliseconds, rounded down. *)
Theorem getCurrentTimeMs_floor w :
  0 <= tv_sec (clock w (tick w)) ->
  tv_sec (clock w (tick w)) * 1000 + 1000 <= 2 ^ 64 ->
  0 <= tv_usec (clock w (tick w)) < 1000000 ->
  (getCurrentTimeMs w).1 * 1000 <= us_of (clock w (tick w))
    < (getCurrentTimeMs w).1 * 1000 + 1000 /\
  tick (getCurrentTimeMs w).2 = S (tick w).
Proof.
  intros Hs Hb Hu. simpl. split; [|reflexivity].
  destruct (quot_1000 (tv_usec (clock w (tick w)))) as (r & Hqr & Hpos & _).
  unfold ms_of, us_of. rewrite uint64_small; lia.
Qed.

Lemma getCurrentTimeMs_floor_witness :
  (getCurrentTimeMs w_hold).1 * 1000 <= us_of (clock w_hold (tick w_hold))
    < (getCurrentTimeMs w_hold).1 * 1000 + 1000 /\
  tick (getCurrentTimeMs w_hold).2 = S (tick w_hold).
Proof.
  apply getCurrentTimeMs_floor;
    [vm_compute; discriminate|vm_compute; discriminate
    |vm_compute; split; [discriminate|reflexivity]].
Defined.

(** ** The shape of the operations *)

Lemma find_index_None r l : find_index r l = None -> ~ In r (map ref l).
Proof.
  induction l as [|i l IH]; simpl; [tauto|].
  destruct (ref i =? r) eqn:E; [discriminate|].
  apply Z.eqb_neq in E.
  destruct (find_index r l); simpl; [discriminate|].
  intros _ [H|H]; [contradiction|]. apply IH; [reflexivity|exact H].
Qed.

Lemma map_ref_alter f l : forall p,
  (forall i, ref (f i) = ref i) -> map ref (alter f p l) = map ref l.
Proof.
  induction l as [|i l IH]; intros p Hf; [reflexivity|].
  destruct p as [|p].
  - change (alter f 0%nat (i :: l)) with (f i :: l). simpl.
    rewrite Hf. reflexivity.
  - change (alter f (S p) (i :: l)) with (i :: alter f p l). simpl.
    rewrite (IH p Hf). reflexivity.
Qed.

Lemma touched_refl w : touched w w.
Proof. unfold touched. repeat split; auto. Qed.

Lemma run_call_touched n w c :
  exists w1, touched w w1 /\
    run_call n w c = match c with Hold _ _ => w1 | _ => checkCanSleep n w1 end.
Proof.
  destruct c as [r ms|r ms|r|]; simpl.
  - unfold _powerHold.
    pose proof (findItem_rest r w) as Hrest.
    destruct (findItem r w) as [p w1] eqn:E. simpl in *.
    eexists. split; [|reflexivity].
    rewrite Hrest. unfold touched. simpl.
    do 6 (split; [reflexivity|]). split; [lia|]. right.
    exists r, (set_state ST_ACTIVE ∘
               set_sleepUntil (deadline_after (clock w (tick w)) ms)).
    split; [reflexivity|]. split; [intros i; left; reflexivity|].
    rewrite E. simpl. apply list_alter_alter_eq.
  - unfold _powerCanSleepFor.
    pose proof (findItem_rest r w) as Hrest.
    destruct (findItem r w) as [p w1] eqn:E. simpl in *.
    eexists. split; [|reflexivity].
    rewrite Hrest. unfold touched. simpl.
    do 6 (split; [reflexivity|]). split; [lia|]. right.
    exists r, (set_state ST_CANSLEEP_UNTIL ∘
               set_sleepUntil (deadline_after (clock w (tick w)) ms)).
    split; [reflexivity|]. split; [intros i; right; right; reflexivity|].
    rewrite E. simpl. apply list_alter_alter_eq.
  - unfold _powerCanSleep.
    pose proof (findItem_rest r w) as Hrest.
    destruct (findItem r w) as [p w1] eqn:E. simpl in *.
    eexists. split; [|reflexivity].
    rewrite Hrest. unfold touched. simpl.
    do 6 (split; [reflexivity|]). split; [lia|]. right.
    exists r, (set_state ST_CANSLEEP).
    split; [reflexivity|]. split; [intros i; right; left; reflexivity|].
    rewrite E. reflexivity.
  - exists w. split; [apply touched_refl|reflexivity].
Qed.

Lemma findItem_refs r w :
  (map ref (powerItems (findItem r w).2) = map ref (powerItems w)) \/
  (map ref (powerItems (findItem r w).2) = r :: map ref (powerItems w) /\
   ~ In r (map ref (powerItems w))).
Proof.
  unfold findItem. destruct (find_index r (powerItems w)) eqn:E; simpl.
  - left. reflexivity.
  - right. split; [reflexivity|apply find_index_None; exact E].
Qed.

Lemma touched_refs w w1 :
  touched w w1 ->
  (map ref (powerItems w1) = map ref (powerItems w)) \/
  exists r, map ref (powerItems w1) = r :: map ref (powerItems w) /\
            ~ In r (map ref (powerItems w)).
Proof.
  intros (_&_&_&_&_&_&_&[H|(r & f & Hf & _ & H)]); rewrite H; [left; reflexivity|].
  rewrite map_ref_alter by exact Hf.
  destruct (findItem_refs r w) as [H1|[H1 H2]]; [left; exact H1|].
  right. exists r. split; assumption.
Qed.

Lemma touched_valid w w1 :
  touched w w1 ->
  Forall valid_state (powerItems w) -> Forall valid_state (powerItems w1).
Proof.
  intros (_&_&_&_&_&_&_&[H|(r & f & _ & Hf & H)]) Hv; rewrite H; [exact Hv|].
  apply Forall_alter; [|intros; apply Hf].
  unfold findItem. destruct (find_index r (powerItems w)); simpl; [exact Hv|].
  constructor; [left; reflexivity|exact Hv].
Qed.

(** ** What a pass leaves alone *)

Lemma due_loop_no_callback modes : forall b w,
  pdCb w = false -> cbLog (due_loop modes b w).2 = cbLog w.
Proof.
  induction modes as [|i rest IH]; intros b w Hcb; [reflexivity|].
  rewrite due_loop_cons. destruct (_ =? 0); [apply IH; exact Hcb|].
  assert (Hd : doSleep 0 i (set_tick (S (tick w)) w) = set_tick (S (tick w)) w)
    by (unfold doSleep; simpl; rewrite Hcb; reflexivity).
  rewrite Hd. destruct (_ <? _); rewrite IH by exact Hcb; reflexivity.
Qed.

Lemma sleep_branch_frame n c w :
  pdCb (sleep_branch n c w) = pdCb w /\
  powerMode (sleep_branch n c w) = powerMode w /\
  clock (sleep_branch n c w) = clock w /\
  tmrResets (sleep_branch n c w) = tmrResets w /\
  (tick w <= tick (sleep_branch n c w))%nat /\
  (pdCb w = false -> cbLog (sleep_branch n c w) = cbLog w).
Proof.
  unfold sleep_branch. simpl. destruct (_ =? _)%nat; unfold doSleep; simpl;
    destruct (pdCb w) eqn:E; simpl; repeat split; try lia; congruence.
Qed.

Lemma checkCanSleep_frame n w :
  pdCb (checkCanSleep n w) = pdCb w /\
  powerMode (checkCanSleep n w) = powerMode w /\
  clock (checkCanSleep n w) = clock w /\
  tmrResets (checkCanSleep n w) = S (tmrResets w) /\
  (tick w <= tick (checkCanSleep n w))%nat /\
  length (savedWakeTimestamp (checkCanSleep n w)) = length (savedWakeTimestamp w) /\
  (forall m, m <> powerMode w ->
     savedWakeTimestamp (checkCanSleep n w) !! m = savedWakeTimestamp w !! m) /\
  (pdCb w = false -> cbLog (checkCanSleep n w) = cbLog w).
Proof.
  rewrite checkCanSleep_eq, decision_point_eq. cbv zeta.
  set (w1 := set_powerItems _ _). set (b := (scan_phase w).1.2).
  set (c := (scan_phase w).1.1.2). simpl.
  destruct (due_loop_frame (higher_modes n w) b w1)
    as ((Hcb & Hpm & Hts & Hck & Htr) & _ & Ht).
  pose proof (due_loop_no_callback (higher_modes n w) b w1) as Hlog.
  simpl in *.
  destruct (_ =? 0).
  - destruct (sleep_branch_frame n c (due_loop (higher_modes n w) b w1).2)
      as (Scb & Spm & Sck & Str & St & Slog).
    change (pdCb (xTimerReset ?x)) with (pdCb x).
    change (powerMode (xTimerReset ?x)) with (powerMode x).
    change (clock (xTimerReset ?x)) with (clock x).
    change (tmrResets (xTimerReset ?x)) with (S (tmrResets x)).
    change (tick (xTimerReset ?x)) with (tick x).
    change (savedWakeTimestamp (xTimerReset ?x)) with (savedWakeTimestamp x).
    change (cbLog (xTimerReset ?x)) with (cbLog x).
    rewrite sleep_branch_ts, Hts, Hpm.
    split; [congruence|]. split; [congruence|]. split; [congruence|].
    split; [congruence|]. split; [lia|].
    split; [apply length_insert|].
    split; [intros m Hm; apply list_lookup_insert_ne; congruence|].
    intros Hf. rewrite Slog by congruence. apply Hlog. exact Hf.
  - simpl. repeat split; try congruence; try lia; auto.
Qed.

Lemma checkCanSleep_refs n w :
  map ref (powerItems (checkCanSleep n w)) = map ref (powerItems w).
Proof.
  apply list_eq. intros k.
  change (map ref) with (fmap (M := list) ref).
  rewrite !list_lookup_fmap, checkCanSleep_items.
  destruct (powerItems w !! k); simpl; [|reflexivity].
  rewrite item_after_ref. reflexivity.
Qed.

Lemma item_after_valid i now : valid_state i -> valid_state (item_after i now).
Proof.
  unfold valid_state. rewrite item_after_state. intros H.
  destruct (state i =? ST_ACTIVE); [destruct (0 <? _); auto|].
  destruct (_ && _); auto.
Qed.

Lemma checkCanSleep_valid n w :
  Forall valid_state (powerItems w) ->
  Forall valid_state (powerItems (checkCanSleep n w)).
Proof.
  rewrite !Forall_lookup. intros H k x. rewrite checkCanSleep_items.
  destruct (powerItems w !! k) as [i|] eqn:E; simpl; [|discriminate].
  intros [= <-]. apply item_after_valid. apply (H k i E).
Qed.

(** An invariant of the stores of the operations and of the pass is an
    invariant of every run. *)
Lemma run_invariant n (P : World -> Prop) :
  (forall w w1, touched w w1 -> P w -> P w1) ->
  (forall w, P w -> P (checkCanSleep n w)) ->
  forall cs w, P w -> P (run n cs w).
Proof.
  intros Ht Hp cs. induction cs as [|c cs IH]; intros w Hw; [exact Hw|].
  simpl. apply IH.
  destruct (run_call_touched n w c) as (w1 & Htw & ->).
  destruct c; [eapply Ht; eassumption|..]; apply Hp; eapply Ht; eassumption.
Qed.

(** ** The registry over runs *)

(** X4.  [findItem] returns a pointer to a record of the reference asked
    for - a zeroed record at the head when the reference was unknown -
    and asking again finds that record: nothing is added twice. *)
Theorem findItem_again r w :
  findItem r (findItem r w).2 = findItem r w /\
  (exists i, powerItems (findItem r w).2 !! (findItem r w).1 = Some i /\ ref i = r) /\
  (find_index r (powerItems w) = None ->
   (findItem r w).1 = 0%nat /\
   powerItems (findItem r w).2 = new_item r :: powerItems w).
Proof.
  pose proof (findItem_found r w) as Hfound.
  split; [|split].
  - unfold findItem at 1. rewrite Hfound. symmetry. apply surjective_pairing.
  - apply find_index_Some. exact Hfound.
  - intros Hnone. unfold findItem. rewrite Hnone. split; reflexivity.
Qed.

(** X5.  References that are pairwise distinct in the registry stay so
    through every run of calls: a record is only added for a reference
    that [findItem] did not find. *)
Theorem registry_refs_stay_distinct n cs w :
  NoDup (map ref (powerItems w)) ->
  NoDup (map ref (powerItems (run n cs w))).
Proof.
  apply (run_invariant n (fun w => NoDup (map ref (powerItems w)))).
  - intros w0 w1 Ht Hnd.
    destruct (touched_refs w0 w1 Ht) as [->|(r & -> & Hnew)]; [exact Hnd|].
    apply NoDup_cons. split; [|exact Hnd].
    rewrite list_elem_of_In. exact Hnew.
  - intros w0 Hnd. rewrite checkCanSleep_refs. exact Hnd.
Qed.

Lemma registry_refs_stay_distinct_witness :
  NoDup (map ref (powerItems
    (run 2 [CanSleepFor 8 3000; Hold 7 10; CanSleep 9; Timer; Hold 8 5] w_hold))).
Proof.
  apply registry_refs_stay_distinct. simpl.
  apply NoDup_cons. split; [|apply NoDup_nil; exact I].
  rewrite list_elem_of_In. simpl. tauto.
Defined.

(** X6.  The registry never loses an owner: after any run the
    references are those known before, in the same order, behind the
    ones added since. *)
Theorem registry_never_shrinks n cs w :
  exists added,
    map ref (powerItems (run n cs w)) = added ++ map ref (powerItems w).
Proof.
  apply (run_invariant n
           (fun w' => exists added,
              map ref (powerItems w') = added ++ map ref (powerItems w))).
  - intros w0 w1 Ht (added & Ha).
    destruct (touched_refs w0 w1 Ht) as [->|(r & -> & _)].
    + exists added. exact Ha.
    + exists (r :: added). rewrite Ha. reflexivity.
  - intros w0 (added & Ha). exists added. rewrite checkCanSleep_refs. exact Ha.
  - exists []. reflexivity.
Qed.

(** X7.  If every record holds one of the three state values, so does
    every record after any run of calls: new records start as
    [ST_ACTIVE] and neither a store of an operation nor a pass writes
    another value. *)
Theorem states_stay_valid n cs w :
  Forall valid_state (powerItems w) ->
  Forall valid_state (powerItems (run n cs w)).
Proof.
  apply (run_invariant n (fun w => Forall valid_state (powerItems w))).
  - intros w0 w1. apply touched_valid.
  - intros w0. apply checkCanSleep_valid.
Qed.

Lemma states_stay_valid_witness :
  Forall valid_state (powerItems
    (run 2 [CanSleepFor 8 1500; Hold 7 10; CanSleep 9; Timer] w_hold)).
Proof.
  apply states_stay_valid. repeat constructor.
Defined.

(** X8.  Every call but a hold runs exactly one pass, and every pass
    resets the timer exactly once whatever it decides: after a run the
    timer has been reset once per call that is not a hold. *)
Theorem timer_reset_once_per_pass n cs : forall w,
  tmrResets (run n cs w) = (tmrResets w + passes_of cs)%nat.
Proof.
  induction cs as [|c cs IH]; intros w.
  - simpl. unfold passes_of. simpl. lia.
  - simpl. rewrite IH.
    destruct (run_call_touched n w c) as (w1 & (_&_&_&_&_&Htr&_) & ->).
    destruct (checkCanSleep_frame n w1) as (_&_&_&Hs&_).
    unfold passes_of in *.
    destruct c; simpl; rewrite ?Hs, Htr; lia.
Qed.

(** X9.  No run of calls changes the power mode or the installed
    callback, resizes the wake table, or writes the slot of a mode other
    than the current one. *)
Theorem run_writes_own_slot_only n cs w :
  powerMode (run n cs w) = powerMode w /\
  pdCb (run n cs w) = pdCb w /\
  length (savedWakeTimestamp (run n cs w)) = length (savedWakeTimestamp w) /\
  forall m, m <> powerMode w ->
    savedWakeTimestamp (run n cs w) !! m = savedWakeTimestamp w !! m.
Proof.
  apply (run_invariant n
    (fun w' => powerMode w' = powerMode w /\ pdCb w' = pdCb w /\
       length (savedWakeTimestamp w') = length (savedWakeTimestamp w) /\
       forall m, m <> powerMode w ->
         savedWakeTimestamp w' !! m = savedWakeTimestamp w !! m)).
  - intros w0 w1 (Hcb & Hpm & Hts & _) (H1 & H2 & H3 & H4).
    rewrite Hcb, Hpm, Hts. auto.
  - intros w0 (H1 & H2 & H3 & H4).
    destruct (checkCanSleep_frame n w0) as (Fcb & Fpm & _ & _ & _ & Flen & Fts & _).
    split; [congruence|]. split; [congruence|]. split; [congruence|].
    intros m Hm. rewrite Fts by congruence. apply H4. exact Hm.
  - auto.
Qed.

(** X10.  Without an installed callback no run of calls invokes
    anything: [doSleep] tests [pdCb] before every call through it. *)
Theorem no_callback_no_invocation n cs w :
  pdCb w = false -> cbLog (run n cs w) = cbLog w.
Proof.
  intros Hcb.
  assert (H : pdCb (run n cs w) = false /\ cbLog (run n cs w) = cbLog w);
    [|apply H].
  apply (run_invariant n (fun w' => pdCb w' = false /\ cbLog w' = cbLog w)).
  - intros w0 w1 (Tcb & _ & _ & _ & Tlog & _) (H1 & H2). split; congruence.
  - intros w0 (H1 & H2).
    destruct (checkCanSleep_frame n w0) as (Fcb & _ & _ & _ & _ & _ & _ & Flog).
    split; [congruence|]. rewrite Flog by exact H1. exact H2.
  - auto.
Qed.

Lemma no_callback_no_invocation_witness :
  cbLog (run 3 [CanSleep 7; Timer; CanSleepFor 8 3000]
           (powerDownMgrInit false 0 w_two_due)) = [].
Proof.
  apply (no_callback_no_invocation 3 [CanSleep 7; Timer; CanSleepFor 8 3000]
           (powerDownMgrInit false 0 w_two_due)).
  reflexivity.
Defined.

(** X11.  A pass changes nothing of a record but its state: the
    references and the deadlines of the registry are the same after it,
    record by record. *)
Theorem pass_only_changes_states n w :
  map ref (powerItems (checkCanSleep n w)) = map ref (powerItems w) /\
  map sleepUntil (powerItems (checkCanSleep n w)) = map sleepUntil (powerItems w).
Proof.
  split; [apply checkCanSleep_refs|].
  apply list_eq. intros k.
  change (map sleepUntil) with (fmap (M := list) sleepUntil).
  rewrite !list_lookup_fmap, checkCanSleep_items.
  destruct (powerItems w !! k); simpl; [|reflexivity].
  rewrite item_after_sleepUntil. reflexivity.
Qed.

(** ** Operations followed by their pass *)

Lemma powerHold_eq r ms w :
  _powerHold r ms w =
  set_powerItems
    (alter (set_state ST_ACTIVE ∘
            set_sleepUntil (deadline_after (clock w (tick w)) ms))
       (findItem r w).1 (powerItems (findItem r w).2))
    (set_tick (S (tick w)) w).
Proof.
  unfold _powerHold.
  pose proof (findItem_rest r w) as Hrest.
  destruct (findItem r w) as [p w1]. simpl in *.
  rewrite Hrest. unfold modify, set_powerItems, set_tick. simpl.
  rewrite list_alter_alter_eq. reflexivity.
Qed.

Lemma powerCanSleepFor_eq n r ms w :
  _powerCanSleepFor n r ms w =
  checkCanSleep n
    (set_powerItems
       (alter (set_state ST_CANSLEEP_UNTIL ∘
               set_sleepUntil (deadline_after (clock w (tick w)) ms))
          (findItem r w).1 (powerItems (findItem r w).2))
       (set_tick (S (tick w)) w)).
Proof.
  unfold _powerCanSleepFor.
  pose proof (findItem_rest r w) as Hrest.
  destruct (findItem r w) as [p w1]. simpl in *.
  rewrite Hrest. unfold modify, set_powerItems, set_tick. simpl.
  rewrite list_alter_alter_eq. reflexivity.
Qed.

(** The record a store through [findItem]'s pointer leaves, and where. *)
Lemma touch_lookup r f w :
  (forall i, ref (f i) = ref i) ->
  find_index r (alter f (findItem r w).1 (powerItems (findItem r w).2))
    = Some (findItem r w).1 /\
  alter f (findItem r w).1 (powerItems (findItem r w).2) !! (findItem r w).1
    = Some (f (default (new_item r) (item_of r (powerItems w)))).
Proof.
  intros Hf.
  assert (Hidx : find_index r (alter f (findItem r w).1
                                 (powerItems (findItem r w).2))
                 = Some (findItem r w).1)
    by (rewrite find_index_alter by exact Hf; apply findItem_found).
  split; [exact Hidx|].
  pose proof (touch_item_of r f w r Hf) as H. rewrite Z.eqb_refl in H.
  unfold item_of in H at 1. rewrite Hidx in H. exact H.
Qed.

Lemma item_of_pass n r w p i :
  find_index r (powerItems w) = Some p ->
  powerItems w !! p = Some i ->
  item_of r (powerItems (checkCanSleep n w))
    = Some (item_after i (clock w (tick w + p))).
Proof.
  intros Hp Hi. unfold item_of.
  rewrite (find_index_refs r _ (powerItems w) (checkCanSleep_refs n w)), Hp.
  simpl. rewrite checkCanSleep_items, Hi. reflexivity.
Qed.

Section Composed.

Variable NO_POWER_MODES : nat.

(** X12.  Under a clock that stands at [now], a timed permission of
    less than 2000 ms is turned down at once: when
    [_powerCanSleepFor] returns, the owner is [ST_ACTIVE] with a deadline
    [ms] milliseconds after [now], no wake timestamp has been written,
    and the callback has at most been asked for immediate switches to
    higher-priority modes. *)
Theorem short_permission_rejected r ms w now :
  frozen w now ->
  - 2 ^ 31 <= ms < 2000 ->
  (exists i,
     item_of r (powerItems (_powerCanSleepFor NO_POWER_MODES r ms w)) = Some i /\
     state i = ST_ACTIVE /\ us_of (sleepUntil i) = us_of now + 1000 * ms) /\
  savedWakeTimestamp (_powerCanSleepFor NO_POWER_MODES r ms w)
    = savedWakeTimestamp w /\
  exists due,
    cbLog (_powerCanSleepFor NO_POWER_MODES r ms w)
      = cbLog w ++ map (fun m => (0, m)) due /\
    Forall (fun m => (powerMode w < m < NO_POWER_MODES)%nat) due.
Proof.
  intros Hf Hms. rewrite powerCanSleepFor_eq, (Hf (tick w)) by lia.
  set (F := set_state ST_CANSLEEP_UNTIL ∘ set_sleepUntil (deadline_after now ms)).
  set (w1 := set_powerItems _ _).
  destruct (touch_lookup r F w (fun _ => eq_refl)) as [Hidx Hlook].
  set (p := (findItem r w).1) in *.
  set (j := default (new_item r) (item_of r (powerItems w))) in *.
  assert (Hnow : clock w1 (tick w1 + p) = now) by (apply Hf; simpl; lia).
  assert (Hrt : mssleep_of (sleepUntil (F j)) now = ms)
    by (apply mssleep_of_deadline_after; lia).
  assert (Hblk : blocks (F j) (clock w1 (tick w1 + p)) = true).
  { rewrite Hnow. unfold blocks. rewrite Hrt. simpl.
    apply Z.ltb_lt. lia. }
  destruct (blocked_pass NO_POWER_MODES w1 p (F j) Hlook Hblk)
    as (_ & Hts & due & Hlog & Hdue).
  split; [|split].
  - exists (item_after (F j) now). split; [|split].
    + rewrite <- Hnow. apply (item_of_pass NO_POWER_MODES r w1 p); assumption.
    + rewrite item_after_state, Hrt. simpl.
      replace (ms <? 2000) with true by (symmetry; apply Z.ltb_lt; lia).
      reflexivity.
    + rewrite item_after_sleepUntil. apply deadline_after_us.
  - exact Hts.
  - exists due. split; [exact Hlog|].
    eapply Forall_impl; [exact Hdue|]. simpl. tauto.
Qed.

(** X13.  Under a clock that stands at [now], a hold of a positive
    number of milliseconds blocks the pass that follows it: the flag
    tested at line 128 is set, no wake timestamp is written, and the
    callback is at most asked for immediate switches to higher-priority
    modes. *)
Theorem hold_blocks_next_pass r ms w now :
  frozen w now ->
  0 < ms < 2 ^ 31 ->
  (decision_point NO_POWER_MODES (_powerHold r ms w)).1.2 <> 0 /\
  savedWakeTimestamp (checkCanSleep NO_POWER_MODES (_powerHold r ms w))
    = savedWakeTimestamp w /\
  exists due,
    cbLog (checkCanSleep NO_POWER_MODES (_powerHold r ms w))
      = cbLog w ++ map (fun m => (0, m)) due /\
    Forall (fun m => (powerMode w < m < NO_POWER_MODES)%nat) due.
Proof.
  intros Hf Hms. rewrite powerHold_eq, (Hf (tick w)) by lia.
  set (F := set_state ST_ACTIVE ∘ set_sleepUntil (deadline_after now ms)).
  set (w1 := set_powerItems _ _).
  destruct (touch_lookup r F w (fun _ => eq_refl)) as [_ Hlook].
  set (p := (findItem r w).1) in *.
  set (j := default (new_item r) (item_of r (powerItems w))) in *.
  assert (Hnow : clock w1 (tick w1 + p) = now) by (apply Hf; simpl; lia).
  assert (Hrt : mssleep_of (sleepUntil (F j)) now = ms)
    by (apply mssleep_of_deadline_after; lia).
  assert (Hblk : blocks (F j) (clock w1 (tick w1 + p)) = true).
  { rewrite Hnow. unfold blocks. rewrite Hrt. simpl.
    rewrite orb_false_r. apply Z.ltb_lt. lia. }
  destruct (blocked_pass NO_POWER_MODES w1 p (F j) Hlook Hblk)
    as (Hflag & Hts & due & Hlog & Hdue).
  split; [rewrite Hflag; discriminate|]. split; [exact Hts|].
  exists due. split; [exact Hlog|].
  eapply Forall_impl; [exact Hdue|]. simpl. tauto.
Qed.

(** X14.  A record that is [ST_ACTIVE] when a pass starts and has no
    millisecond left when the pass looks at it is [ST_CANSLEEP] after
    the pass, with its reference and deadline kept. *)
Theorem expired_hold_released w k i :
  powerItems w !! k = Some i ->
  state i = ST_ACTIVE ->
  mssleep_of (sleepUntil i) (clock w (tick w + k)) <= 0 ->
  powerItems (checkCanSleep NO_POWER_MODES w) !! k = Some (set_state ST_CANSLEEP i).
Proof.
  intros Hk Hs Hms. rewrite checkCanSleep_items, Hk. simpl. f_equal.
  unfold item_after, scan_item. rewrite Hs. simpl.
  replace (0 <? _) with false by (symmetry; apply Z.ltb_ge; exact Hms).
  reflexivity.
Qed.


(** X16.  Under a clock that stands at [now] and with a callback
    installed, a pass that does not reach the sleep branch invokes the
    callback for exactly the higher-priority modes whose wake timestamp
    is nonzero and before [now], once each and in ascending order. *)
Theorem blocked_pass_invocations w now :
  frozen w now ->
  pdCb w = true ->
  (decision_point NO_POWER_MODES w).1.2 <> 0 ->
  cbLog (checkCanSleep NO_POWER_MODES w) =
  cbLog w ++ map (fun m => (0, m))
               (List.filter (is_due (savedWakeTimestamp w) (ms_of now))
                  (higher_modes NO_POWER_MODES w)).
Proof.
  intros Hf Hcb. rewrite checkCanSleep_eq, decision_point_eq. cbv zeta.
  set (w1 := set_powerItems _ _). simpl. intros Hflag.
  apply Z.eqb_neq in Hflag. rewrite Hflag.
  change (cbLog (xTimerReset ?x)) with (cbLog x).
  assert (Hf1 : frozen w1 now)
    by (eapply frozen_frame; [exact Hf|reflexivity|simpl; lia]).
  destruct (due_loop_frozen (higher_modes NO_POWER_MODES w)
              (scan_phase w).1.2 w1 now Hf1) as [_ Hlog].
  apply Hlog. exact Hcb.
Qed.

End Composed.

Lemma short_permission_rejected_witness :
  (exists i,
     item_of 7 (powerItems (_powerCanSleepFor 2 7 1500 w_idle)) = Some i /\
     state i = ST_ACTIVE /\
     us_of (sleepUntil i) = us_of (at_ms 10000) + 1000 * 1500) /\
  savedWakeTimestamp (_powerCanSleepFor 2 7 1500 w_idle) = savedWakeTimestamp w_idle /\
  exists due,
    cbLog (_powerCanSleepFor 2 7 1500 w_idle)
      = cbLog w_idle ++ map (fun m => (0, m)) due /\
    Forall (fun m => (powerMode w_idle < m < 2)%nat) due.
Proof.
  apply (short_permission_rejected 2 7 1500 w_idle (at_ms 10000));
    [apply frozen_boot|lia].
Defined.

Lemma hold_blocks_next_pass_witness :
  (decision_point 2 (_powerHold 7 1 w_idle)).1.2 <> 0 /\
  savedWakeTimestamp (checkCanSleep 2 (_powerHold 7 1 w_idle))
    = savedWakeTimestamp w_idle /\
  exists due,
    cbLog (checkCanSleep 2 (_powerHold 7 1 w_idle))
      = cbLog w_idle ++ map (fun m => (0, m)) due /\
    Forall (fun m => (powerMode w_idle < m < 2)%nat) due.
Proof.
  apply (hold_blocks_next_pass 2 7 1 w_idle (at_ms 10000));
    [apply frozen_boot|lia].
Defined.

Lemma expired_hold_released_witness :
  powerItems (checkCanSleep 2 (boot 0 [0; 0] [item 7 ST_ACTIVE 10000] (at_ms 10000)))
    !! 0%nat
  = Some (set_state ST_CANSLEEP (item 7 ST_ACTIVE 10000)).
Proof.
  apply (expired_hold_released 2
           (boot 0 [0; 0] [item 7 ST_ACTIVE 10000] (at_ms 10000)) 0
           (item 7 ST_ACTIVE 10000));
    [reflexivity|reflexivity|vm_compute; discriminate].
Defined.


Lemma blocked_pass_invocations_witness :
  cbLog (checkCanSleep 3 w_two_due) =
  cbLog w_two_due ++
  map (fun m => (0, m))
    (List.filter (is_due (savedWakeTimestamp w_two_due) (ms_of (at_ms 10000)))
       (higher_modes 3 w_two_due)).
Proof.
  apply (blocked_pass_invocations 3 w_two_due (at_ms 10000));
    [apply frozen_boot|reflexivity|vm_compute; discriminate].
Defined.

(** ** Passes repeated at one instant *)

Lemma item_ext i j :
  ref i = ref j -> state i = state j -> sleepUntil i = sleepUntil j -> i = j.
Proof. destruct i, j. simpl. intros -> -> ->. reflexivity. Qed.

Lemma item_after_settles i now :
  item_after (item_after (item_after i now) now) now
  = item_after (item_after i now) now.
Proof.
  apply item_ext.
  - rewrite !item_after_ref. reflexivity.
  - rewrite !item_after_state, !item_after_sleepUntil.
    generalize (mssleep_of (sleepUntil i) now) as m.
    generalize (state i) as s. intros s m.
    unfold ST_ACTIVE, ST_CANSLEEP, ST_CANSLEEP_UNTIL.
    destruct (Z.eqb_spec s 0) as [->|H0]; [|destruct (Z.eqb_spec s 2) as [->|H2]];
      destruct (Z.ltb_spec 0 m) as [Hm|Hm];
      destruct (Z.ltb_spec m 2000) as [Hn|Hn];
      cbn; try reflexivity;
      repeat match goal with
             | |- context [?a =? ?b] =>
                 destruct (Z.eqb_spec a b); cbn in *; try lia
             | |- context [?a <? ?b] =>
                 destruct (Z.ltb_spec a b); cbn in *; try lia
             end; try reflexivity; try lia.
  - rewrite !item_after_sleepUntil. reflexivity.
Qed.

Lemma checkCanSleep_frozen n w now :
  frozen w now -> frozen (checkCanSleep n w) now.
Proof.
  intros Hf. destruct (checkCanSleep_frame n w) as (_ & _ & Hc & _ & Ht & _).
  eapply frozen_frame; eassumption.
Qed.

(** X17.  While the clock stands still the registry settles with the
    second pass: a third pass leaves every record as the second one
    left it.  (One pass is not always enough: a permission whose window
    is over is made active by the first pass and released by the
    second.) *)
Theorem registry_settles_in_two_passes n w now :
  frozen w now ->
  powerItems (checkCanSleep n (checkCanSleep n (checkCanSleep n w)))
  = powerItems (checkCanSleep n (checkCanSleep n w)).
Proof.
  intros Hf.
  pose proof (checkCanSleep_frozen n w now Hf) as Hf1.
  pose proof (checkCanSleep_frozen n _ now Hf1) as Hf2.
  apply list_eq. intros k.
  rewrite (checkCanSleep_items n (checkCanSleep n (checkCanSleep n w))).
  rewrite (checkCanSleep_items n (checkCanSleep n w)).
  rewrite (checkCanSleep_items n w).
  rewrite (Hf2 _ (Nat.le_add_r _ k)), (Hf1 _ (Nat.le_add_r _ k)),
          (Hf _ (Nat.le_add_r _ k)).
  destruct (powerItems w !! k) as [i|]; simpl; [|reflexivity].
  rewrite item_after_settles. reflexivity.
Qed.

Lemma registry_settles_in_two_passes_witness :
  powerItems (checkCanSleep 2 (checkCanSleep 2 (checkCanSleep 2 w_mixed)))
  = powerItems (checkCanSleep 2 (checkCanSleep 2 w_mixed)).
Proof.
  apply (registry_settles_in_two_passes 2 w_mixed (at_ms 10000)).
  apply frozen_boot.
Defined.

(** ** How often and for which mode the callback is invoked *)

Lemma due_loop_log_length modes : forall b w,
  exists due,
    cbLog (due_loop modes b w).2 = cbLog w ++ due /\
    (length due <= length modes)%nat /\
    ((due_loop modes b w).1 = 1 \/ (due_loop modes b w).1 = b /\ due = []).
Proof.
  induction modes as [|i rest IH]; intros b w.
  - exists []. simpl. rewrite app_nil_r. auto.
  - rewrite due_loop_cons. destruct (_ =? 0).
    + destruct (IH b w) as (due & Hl & Hn & Hb). exists due.
      split; [exact Hl|]. split; [simpl; lia|exact Hb].
    + destruct (_ <? _).
      * destruct (IH 1 (doSleep 0 i (set_tick (S (tick w)) w)))
          as (due & Hl & Hn & Hb).
        assert (Hone : (due_loop rest 1 (doSleep 0 i (set_tick (S (tick w)) w))).1 = 1)
          by (destruct Hb as [Hb|[Hb _]]; exact Hb).
        destruct (pdCb w) eqn:Hcb.
        -- exists ((0, i) :: due). rewrite Hl, doSleep_log by exact Hcb. simpl.
           rewrite <- app_assoc. simpl.
           split; [reflexivity|]. split; [lia|left; exact Hone].
        -- exists due. rewrite Hl.
           split; [|split; [simpl; lia|left; exact Hone]].
           unfold doSleep. simpl. rewrite Hcb. reflexivity.
      * destruct (IH b (set_tick (S (tick w)) w)) as (due & Hl & Hn & Hb).
        exists due. split; [exact Hl|]. split; [simpl; lia|exact Hb].
Qed.

(** X18.  A pass invokes the callback at most once per higher-priority
    mode, and at most once altogether when there is no such mode or
    only one - always so with two power modes. *)
Theorem pass_invocation_bound n w :
  exists calls,
    cbLog (checkCanSleep n w) = cbLog w ++ calls /\
    (length calls <= Nat.max 1 (n - S (powerMode w)))%nat.
Proof.
  rewrite checkCanSleep_eq, decision_point_eq. cbv zeta.
  set (w1 := set_powerItems _ _).
  destruct (due_loop_log_length (higher_modes n w) (scan_phase w).1.2 w1)
    as (due & Hl & Hn & Hb).
  destruct (due_loop_frame (higher_modes n w) (scan_phase w).1.2 w1)
    as ((Hcb & _) & _).
  unfold higher_modes in Hn at 1. rewrite length_seq in Hn.
  change (cbLog (xTimerReset ?x)) with (cbLog x). simpl.
  destruct (_ =? 0) eqn:E.
  - apply Z.eqb_eq in E. destruct Hb as [Hb|[_ ->]]; [congruence|].
    rewrite app_nil_r in Hl.
    destruct (pdCb w) eqn:Hp.
    + rewrite sleep_branch_log by (rewrite Hcb; exact Hp). rewrite Hl.
      eexists [_]. split; [reflexivity|]. simpl. lia.
    + exists []. rewrite app_nil_r. split; [|simpl; lia].
      destruct (sleep_branch_frame n (scan_phase w).1.1.2
                  (due_loop (higher_modes n w) (scan_phase w).1.2 w1).2)
        as (_ & _ & _ & _ & _ & Hlog).
      rewrite Hlog by (rewrite Hcb; exact Hp). exact Hl.
  - exists due. split; [exact Hl|]. lia.
Qed.

Lemma nearest_loop_range ts modes : forall near,
  nearest_loop ts modes near = near \/ In (nearest_loop ts modes near) modes.
Proof.
  induction modes as [|i rest IH]; intros near; simpl; [left; reflexivity|].
  destruct (_ && _).
  - destruct (IH i) as [->|H]; auto.
  - destruct (IH near) as [->|H]; auto.
Qed.

(** X19.  The search of lines 131-136 never leaves the table: with at
    least one power mode the mode it selects is below
    [NO_POWER_MODES], whatever the wake timestamps are. *)
Theorem nearest_mode_in_range n ts :
  (0 < n)%nat -> (nearestMode_of n ts < n)%nat.
Proof.
  intros Hn. unfold nearestMode_of.
  destruct (nearest_loop_range ts (seq 0 n) 0) as [->|H]; [exact Hn|].
  apply in_seq in H. lia.
Qed.

Lemma nearest_mode_in_range_witness :
  (nearestMode_of 3 [0; 6000; 5000]%Z < 3)%nat.
Proof. apply nearest_mode_in_range. lia. Defined.

(** X20.  Under a clock that stands at [now] and with a callback
    installed: when no record blocks, no higher-priority mode is due
    and slot 0 of the wake table is not zero after the write of line
    129, the pass invokes the callback exactly once, and the target is
    the first mode holding the least nonzero wake timestamp of the
    table as the pass leaves it. *)
Theorem sleep_target_is_first_least n w now :
  frozen w now ->
  pdCb w = true ->
  (0 < n)%nat ->
  (forall i, In i (powerItems w) -> state i = ST_ACTIVE ->
             mssleep_of (sleepUntil i) now <= 0) ->
  (forall i, In i (powerItems w) -> state i = ST_CANSLEEP_UNTIL ->
             2000 <= mssleep_of (sleepUntil i) now) ->
  (forall m, (powerMode w < m < n)%nat ->
             wakeTs (savedWakeTimestamp w) m = 0 \/
             ms_of now <= wakeTs (savedWakeTimestamp w) m) ->
  wakeTs (savedWakeTimestamp (checkCanSleep n w)) 0 <> 0 ->
  exists dur m,
    cbLog (checkCanSleep n w) = cbLog w ++ [(dur, m)] /\
    first_least (savedWakeTimestamp (checkCanSleep n w)) n m.
Proof.
  intros Hf Hcb Hn Hact Hunt Hdue.
  destruct (free_pass n w now Hf) as (_ & _ & Hfr & Hf2 & Hlog & Heq).
  { intros i Hi. apply blocks_false; auto. }
  { intros m Hm. apply is_due_false. auto. }
  rewrite Heq.
  change (savedWakeTimestamp (xTimerReset ?x)) with (savedWakeTimestamp x).
  change (cbLog (xTimerReset ?x)) with (cbLog x).
  destruct Hfr as (Hcb' & _).
  rewrite sleep_branch_ts, sleep_branch_log by congruence.
  rewrite Hlog. cbv zeta. intros Hnz.
  eexists _, _. split; [reflexivity|].
  apply nearestMode_of_least; assumption.
Qed.

Lemma sleep_target_is_first_least_witness :
  exists dur m,
    cbLog (checkCanSleep 2 w_long) = cbLog w_long ++ [(dur, m)] /\
    first_least (savedWakeTimestamp (checkCanSleep 2 w_long)) 2 m.
Proof.
  apply (sleep_target_is_first_least 2 w_long (at_ms 10000)).
  - apply frozen_boot.
  - reflexivity.
  - lia.
  - intros i [<-|[<-|[]]]; discriminate.
  - intros i [<-|[<-|[]]] _; vm_compute; discriminate.
  - intros m Hm. left. assert (m = 1%nat) as -> by (simpl in Hm; lia).
    reflexivity.
  - vm_compute. discriminate.
Defined.

(** One pass is not always enough: the permission of owner 8 is over,
    the first pass makes it active and the second one releases it. *)
Example one_pass_does_not_settle :
  (state <$> powerItems (checkCanSleep 2 w_mixed)) = [ST_CANSLEEP_UNTIL; ST_ACTIVE] /\
  (state <$> powerItems (checkCanSleep 2 (checkCanSleep 2 w_mixed)))
    = [ST_CANSLEEP_UNTIL; ST_CANSLEEP].
Proof. split; vm_compute; reflexivity. Qed.

Lemma mssleep_of_pos_witness :
  (us_of (at_ms 10000) + 1000 <= us_of (at_ms 10001) ->
   0 < mssleep_of (at_ms 10001) (at_ms 10000)) /\
  (0 < mssleep_of (at_ms 10001) (at_ms 10000) ->
   us_of (at_ms 10000) < us_of (at_ms 10001)).
Proof.
  apply (mssleep_of_pos (at_ms 10001) (at_ms 10000));
    vm_compute; split; first [discriminate|reflexivity].
Defined.


(** * Holds and windows in real time *)

(** Within the range of [int] the remaining milliseconds a pass
    computes differ from the true distance between deadline and reading
    by less than a millisecond. *)
Lemma mssleep_of_us until now :
  - 2147483647000 <= us_of until - us_of now <= 2147483647000 ->
  exists r, - 1000 < r < 1000 /\
            us_of until - us_of now = 1000 * mssleep_of until now + r.
Proof.
  intros HD. unfold mssleep_of. cbv zeta. rewrite int32_add_l.
  destruct (quot_1000 (tv_usec until - tv_usec now)) as (r & Hqr & Hpos & Hneg).
  assert (Hr : - 1000 < r < 1000)
    by (destruct (Z.le_gt_cases 0 (tv_usec until - tv_usec now)); lia).
  exists r. split; [exact Hr|].
  unfold us_of in *. rewrite int32_small; lia.
Qed.

(** C1, amended.  If a record is [ST_ACTIVE] when a pass starts and,
    when the pass looks at it, its deadline is at least one millisecond
    ahead (and no more than 2^31 - 1 ms, the range of the [int] the pass
    computes with), the pass does not authorize sleep: the flag tested
    at line 128 is set, so the sleep branch is not taken; no wake
    timestamp is written; and the callback is only invoked, if at all,
    with duration 0 for higher-priority modes whose wake timestamp is
    not zero. *)
Theorem unexpired_hold_blocks_sleep n w k i :
  powerItems w !! k = Some i ->
  state i = ST_ACTIVE ->
  1000 <= us_of (sleepUntil i) - us_of (clock w (tick w + k)) <= 2147483647000 ->
  (decision_point n w).1.2 <> 0 /\
  savedWakeTimestamp (checkCanSleep n w) = savedWakeTimestamp w /\
  exists due,
    cbLog (checkCanSleep n w) = cbLog w ++ map (fun m => (0, m)) due /\
    Forall (fun m => (powerMode w < m < n)%nat /\
                     wakeTs (savedWakeTimestamp w) m <> 0) due.
Proof.
  intros Hk Hs HD. apply (active_hold_blocks_sleep n w k i Hk Hs).
  destruct (mssleep_of_us (sleepUntil i) (clock w (tick w + k)))
    as (r & Hr & Heq); lia.
Qed.

Lemma unexpired_hold_blocks_sleep_witness :
  (decision_point 2 w_hold).1.2 <> 0 /\
  savedWakeTimestamp (checkCanSleep 2 w_hold) = savedWakeTimestamp w_hold /\
  exists due,
    cbLog (checkCanSleep 2 w_hold) = cbLog w_hold ++ map (fun m => (0, m)) due /\
    Forall (fun m => (powerMode w_hold < m < 2)%nat /\
                     wakeTs (savedWakeTimestamp w_hold) m <> 0) due.
Proof.
  apply (unexpired_hold_blocks_sleep 2 w_hold 0 (item 7 ST_ACTIVE 11000));
    [reflexivity|reflexivity|vm_compute; split; discriminate].
Defined.

(** C1 as stated fails: [_powerHold 7 1] at 10.000000 s leaves a
    deadline of 10.001000 s; a pass that reads 10.000500 s finds the
    record [ST_ACTIVE] with its deadline 500 microseconds ahead,
    computes 0 remaining milliseconds, takes the sleep branch, writes
    the wake timestamp and invokes the callback with (-1, 0). *)
Lemma hold_under_a_millisecond_cex :
  powerItems (_powerHold 7 1 (boot 0 [0; 0] [] {| tv_sec := 10; tv_usec := 0 |}))
    = powerItems w_half_ms /\
  cbLog (run 2 [Hold 7 1; Timer]
           (w_two_readings {| tv_sec := 10; tv_usec := 0 |}
                           {| tv_sec := 10; tv_usec := 500 |}))
    = [(-1, 0%nat)] /\
  (exists i, powerItems w_half_ms !! 0%nat = Some i /\ state i = ST_ACTIVE /\
             us_of (clock w_half_ms (tick w_half_ms + 0)) < us_of (sleepUntil i)) /\
  (decision_point 2 w_half_ms).1.2 = 0 /\
  savedWakeTimestamp w_half_ms = [0; 0] /\
  savedWakeTimestamp (checkCanSleep 2 w_half_ms) = [9999; 0] /\
  cbLog (checkCanSleep 2 w_half_ms) = [(-1, 0%nat)].
Proof.
  split; [vm_compute; reflexivity|]. split; [vm_compute; reflexivity|]. split.
  - eexists. split; [reflexivity|]. split; vm_compute; reflexivity.
  - repeat split; vm_compute; reflexivity.
Qed.

(** C2, amended.  A record that is [ST_CANSLEEP_UNTIL] when a pass
    starts and whose deadline, when the pass looks at it, is at most
    1999 ms ahead (and no more than 2^31 - 1 ms past) is [ST_ACTIVE]
    after the pass, and the pass does not authorize sleep (flag set at
    line 128, wake timestamps untouched, only zero-duration requests
    for higher-priority modes). *)
Theorem closing_window_promoted n w k i :
  powerItems w !! k = Some i ->
  state i = ST_CANSLEEP_UNTIL ->
  - 2147483647000 <= us_of (sleepUntil i) - us_of (clock w (tick w + k))
                  <= 1999000 ->
  powerItems (checkCanSleep n w) !! k = Some (set_state ST_ACTIVE i) /\
  (decision_point n w).1.2 <> 0 /\
  savedWakeTimestamp (checkCanSleep n w) = savedWakeTimestamp w /\
  exists due,
    cbLog (checkCanSleep n w) = cbLog w ++ map (fun m => (0, m)) due /\
    Forall (fun m => (powerMode w < m < n)%nat /\
                     wakeTs (savedWakeTimestamp w) m <> 0) due.
Proof.
  intros Hk Hs HD. apply (short_window_promoted n w k i Hk Hs).
  destruct (mssleep_of_us (sleepUntil i) (clock w (tick w + k)))
    as (r & Hr & Heq); lia.
Qed.

Lemma closing_window_promoted_witness :
  powerItems (checkCanSleep 2 w_short) !! 0%nat
    = Some (set_state ST_ACTIVE (item 7 ST_CANSLEEP_UNTIL 11500)) /\
  (decision_point 2 w_short).1.2 <> 0 /\
  savedWakeTimestamp (checkCanSleep 2 w_short) = savedWakeTimestamp w_short /\
  exists due,
    cbLog (checkCanSleep 2 w_short) = cbLog w_short ++ map (fun m => (0, m)) due /\
    Forall (fun m => (powerMode w_short < m < 2)%nat /\
                     wakeTs (savedWakeTimestamp w_short) m <> 0) due.
Proof.
  apply (closing_window_promoted 2 w_short 0 (item 7 ST_CANSLEEP_UNTIL 11500));
    [reflexivity|reflexivity|vm_compute; split; discriminate].
Defined.

(** C2 as stated fails: [_powerCanSleepFor 7 2000] at 10.000000 s
    leaves a deadline of 12.000000 s; a pass that reads 10.000300 s
    finds 1999.7 ms left, computes 2000 remaining milliseconds, leaves
    the record [ST_CANSLEEP_UNTIL] and authorizes sleep for 2000 ms. *)
Lemma window_just_under_2000_cex :
  cbLog (_powerCanSleepFor 2 7 2000
           (w_two_readings {| tv_sec := 10; tv_usec := 0 |}
                           {| tv_sec := 10; tv_usec := 300 |}))
    = [(2000, 0%nat)] /\
  (exists i, powerItems w_window_2000 !! 0%nat = Some i /\
             state i = ST_CANSLEEP_UNTIL /\
             us_of (sleepUntil i)
               - us_of (clock w_window_2000 (tick w_window_2000 + 0))
             = 1999700) /\
  (state <$> powerItems (checkCanSleep 2 w_window_2000)) = [ST_CANSLEEP_UNTIL] /\
  (decision_point 2 w_window_2000).1.2 = 0 /\
  savedWakeTimestamp (checkCanSleep 2 w_window_2000) = [12000; 0] /\
  cbLog (checkCanSleep 2 w_window_2000) = [(2000, 0%nat)].
Proof.
  split; [vm_compute; reflexivity|]. split.
  - eexists. split; [reflexivity|]. split; vm_compute; reflexivity.
  - repeat split; vm_compute; reflexivity.
Qed.

(** C10, amended.  When a pass promotes an [ST_CANSLEEP_UNTIL] record -
    the record is [ST_ACTIVE] after the pass - the pass computed fewer
    than 2000 remaining milliseconds for it and left its reference and
    its deadline, the end of the permission window, unchanged.  Any
    later pass that looks at this record at or after the end of the
    window, and no more than 2^31 - 1 ms after it, demotes it to
    [ST_CANSLEEP], and its iteration of the scan sets neither
    [cannotSleep] nor [canSleepForMs]. *)
Theorem promotion_block_ends_with_window n w k i i1 :
  powerItems w !! k = Some i ->
  state i = ST_CANSLEEP_UNTIL ->
  powerItems (checkCanSleep n w) !! k = Some i1 ->
  state i1 = ST_ACTIVE ->
  mssleep_of (sleepUntil i) (clock w (tick w + k)) < 2000 /\
  sleepUntil i1 = sleepUntil i /\ ref i1 = ref i /\
  forall w2 k2,
    powerItems w2 !! k2 = Some i1 ->
    - 2147483647000 <= us_of (sleepUntil i) - us_of (clock w2 (tick w2 + k2)) <= 0 ->
    powerItems (checkCanSleep n w2) !! k2 = Some (set_state ST_CANSLEEP i) /\
    forall c b, scan_item i1 (clock w2 (tick w2 + k2)) c b
                = (set_state ST_CANSLEEP i, c, b).
Proof.
  intros Hk Hs Hk1 Hs1.
  rewrite checkCanSleep_items, Hk in Hk1. simpl in Hk1. injection Hk1 as Hi1.
  assert (Hms : mssleep_of (sleepUntil i) (clock w (tick w + k)) < 2000).
  { rewrite <- Hi1, item_after_state, Hs in Hs1. simpl in Hs1.
    destruct (_ <? 2000) eqn:E; [apply Z.ltb_lt; exact E|discriminate]. }
  destruct (promotion_block_ends n w k i Hk Hs Hms)
    as (j & Hj & _ & _ & _ & Hlater).
  assert (j = i1) as ->.
  { rewrite checkCanSleep_items, Hk in Hj. simpl in Hj. congruence. }
  split; [exact Hms|].
  split; [rewrite <- Hi1; apply item_after_sleepUntil|].
  split; [rewrite <- Hi1; apply item_after_ref|].
  intros w2 k2 Hk2 HD. apply (Hlater w2 k2 Hk2).
  destruct (mssleep_of_us (sleepUntil i) (clock w2 (tick w2 + k2)))
    as (r & Hr & Heq); lia.
Qed.

Lemma promotion_block_ends_with_window_witness :
  mssleep_of (sleepUntil (item 7 ST_CANSLEEP_UNTIL 11500))
    (clock w_short (tick w_short + 0)) < 2000 /\
  sleepUntil (set_state ST_ACTIVE (item 7 ST_CANSLEEP_UNTIL 11500))
    = sleepUntil (item 7 ST_CANSLEEP_UNTIL 11500) /\
  ref (set_state ST_ACTIVE (item 7 ST_CANSLEEP_UNTIL 11500))
    = ref (item 7 ST_CANSLEEP_UNTIL 11500) /\
  forall w2 k2,
    powerItems w2 !! k2
      = Some (set_state ST_ACTIVE (item 7 ST_CANSLEEP_UNTIL 11500)) ->
    - 2147483647000
      <= us_of (sleepUntil (item 7 ST_CANSLEEP_UNTIL 11500))
         - us_of (clock w2 (tick w2 + k2)) <= 0 ->
    powerItems (checkCanSleep 2 w2) !! k2
      = Some (set_state ST_CANSLEEP (item 7 ST_CANSLEEP_UNTIL 11500)) /\
    forall c b,
      scan_item (set_state ST_ACTIVE (item 7 ST_CANSLEEP_UNTIL 11500))
        (clock w2 (tick w2 + k2)) c b
      = (set_state ST_CANSLEEP (item 7 ST_CANSLEEP_UNTIL 11500), c, b).
Proof.
  apply (promotion_block_ends_with_window 2 w_short 0
           (item 7 ST_CANSLEEP_UNTIL 11500)
           (set_state ST_ACTIVE (item 7 ST_CANSLEEP_UNTIL 11500)));
    [reflexivity|reflexivity|vm_compute; reflexivity|reflexivity].
Defined.

(** C10 as stated fails: the record promoted at 10 s, with its window
    ending at 11.5 s, is looked at again at 2160011.5 s, 25 days after
    the end of the window; the remaining time wraps around to
    2134967296 ms, the record stays [ST_ACTIVE] and still blocks. *)
Lemma promotion_block_wraps_cex :
  powerItems (checkCanSleep 2 w_short) = powerItems w_25_days /\
  (exists i1, powerItems w_25_days !! 0%nat = Some i1 /\ state i1 = ST_ACTIVE /\
              us_of (sleepUntil i1)
                <= us_of (clock w_25_days (tick w_25_days + 0)) /\
              mssleep_of (sleepUntil i1) (clock w_25_days (tick w_25_days + 0))
                = 2134967296) /\
  (state <$> powerItems (checkCanSleep 2 w_25_days)) = [ST_ACTIVE] /\
  (decision_point 2 w_25_days).1.2 = 1 /\
  cbLog (checkCanSleep 2 w_25_days) = [].
Proof.
  split; [vm_compute; reflexivity|]. split.
  - eexists. split; [reflexivity|]. split; [reflexivity|].
    split; vm_compute; [discriminate|reflexivity].
  - repeat split; vm_compute; reflexivity.
Qed.
